(** * android_emuroot: a shallow embedding of [android_emuroot.py]

    The script roots a process of an Android emulator by patching the kernel
    credential structure through a GDB stub.  This development embeds

    - [kernel_version] together with the part of Python's [float] and
      [str.split] it relies on (versions are compared as binary64 numbers);
    - the methods of [GDB_stub_controller] as computations over a simulated
      debug session (target memory, transport replies, command log);
    - the three modes of the script, from the liveness check on.

    and proves what the code does about version resolution, the structure
    locator, the single retry of word reads, the ancestry walk and the
    credential patcher. *)

From Stdlib Require Import ZArith List String Ascii Bool Lia QArith.
Import ListNotations.
Local Open Scope string_scope.
Local Open Scope list_scope.
Local Open Scope Z_scope.

(** ** Python values, exceptions and outcomes *)

(** The exceptions the script can end with.  [PyException msg] is the plain
    [Exception(msg)] the source raises; [SystemExit] is [exit(1)]. *)
Inductive exn : Type :=
| PyException (msg : string)
| NotImplementedError (msg : string)
| SystemExit (code : Z)
| TypeError
| ValueError
| IndexError.

(** What a call does: return a value, raise, or still be running when the
    fuel of a [while True] loop is used up. *)
Inductive outcome (A : Type) : Type :=
| Ret (a : A)
| Raise (e : exn)
| Spin.
Arguments Ret {A} a.
Arguments Raise {A} e.
Arguments Spin {A}.

(** An [int] or [None]: what [read_mem] can hand back. *)
Inductive pyval : Type :=
| PyInt (n : Z)
| PyNone.

(** Python's [==] on these values. *)
Definition py_eq (a b : pyval) : bool :=
  match a, b with
  | PyInt x, PyInt y => x =? y
  | PyNone, PyNone => true
  | _, _ => false
  end.

(** [a + k] for an [int] constant [k]; [None + k] raises [TypeError]. *)
Definition py_add (a : pyval) (k : Z) : outcome Z :=
  match a with
  | PyInt x => Ret (x + k)
  | PyNone => Raise TypeError
  end.

(** [s] between double quotes, the way GDB prints a string. *)
Definition quoted (s : string) : string :=
  String "034" (String.append s (String "034" EmptyString)).

(** ** Binary64 numbers

    Python floats are IEEE binary64.  A finite one is [m * 2^e] with
    [0 <= m < 2^53] and [-1074 <= e <= 971]; every finite value is a whole
    number of units of [2^-1074], which is how two of them are compared.
    NaN is left out: no string with a dot in it spells one, and those are the
    only strings [kernel_version] converts. *)
Inductive float : Type :=
| Finite (neg : bool) (m e : Z)
| Infinity (neg : bool).

(** The integer nearest to [n / d], ties to the even one ([0 < d]). *)
Definition round_half_even (n d : Z) : Z :=
  let q := n / d in
  let r := n mod d in
  if 2 * r <? d then q
  else if d <? 2 * r then q + 1
  else if Z.even q then q else q + 1.

(** [m * 2^e] counted in units of [2^-1074]. *)
Definition ulps (m e : Z) : Z := m * 2 ^ (e + 1074).

(** The exponent of the binary64 grid around [n / d], as a shift above
    [-1074]: [floor (log2 (n / d)) - 52], and [-1074] for subnormals. *)
Definition binary64_shift (n d : Z) : Z :=
  Z.max (Z.log2 (n * 2 ^ 1126 / d) - 104) 0.

(** The binary64 number nearest to [n / d] ([0 <= n], [0 < d]), ties to even,
    overflowing to infinity from [2^1024] on; the sign is carried along. *)
Definition binary64 (neg : bool) (n d : Z) : float :=
  let s := binary64_shift n d in
  let m := round_half_even (n * 2 ^ 1074) (d * 2 ^ s) in
  if 2 ^ 2098 <=? m * 2 ^ s then Infinity neg
  else if m =? 2 ^ 53 then Finite neg (2 ^ 52) (s - 1073)
  else Finite neg m (s - 1074).

(** The float a decimal literal [n * 10^p] denotes. *)
Definition float_of_decimal (neg : bool) (n p : Z) : float :=
  if p <? 0 then binary64 neg n (10 ^ (- p)) else binary64 neg (n * 10 ^ p) 1.

Definition signed (neg : bool) (m : Z) : Z := if neg then - m else m.

(** Python's [x <= y] on floats. *)
Definition float_le (x y : float) : bool :=
  match x, y with
  | Infinity true, _ => true
  | _, Infinity false => true
  | Infinity false, _ => false
  | _, Infinity true => false
  | Finite s1 m1 e1, Finite s2 m2 e2 =>
      signed s1 (ulps m1 e1) <=? signed s2 (ulps m2 e2)
  end.

(** Python's [x < y] on floats. *)
Definition float_lt (x y : float) : bool :=
  match x, y with
  | Infinity true, Infinity true => false
  | Infinity true, _ => true
  | Infinity false, _ => false
  | Finite _ _ _, Infinity neg => negb neg
  | Finite s1 m1 e1, Finite s2 m2 e2 =>
      signed s1 (ulps m1 e1) <? signed s2 (ulps m2 e2)
  end.

(** Python's [x > y]. *)
Definition float_gt (x y : float) : bool := float_lt y x.

(** The literals [3.10] and [3.18] of the source. *)
Definition lit_3_10 : float := float_of_decimal false 310 (-2).
Definition lit_3_18 : float := float_of_decimal false 318 (-2).

(** ** [str.split(".")] and [float(str)]

    Strings are taken to be ASCII, as the output of [uname -r] is. *)

Definition code (c : ascii) : Z := Z.of_N (N_of_ascii c).
Definition is_digit (c : ascii) : bool := (48 <=? code c) && (code c <=? 57).
Definition is_space (c : ascii) : bool :=
  ((9 <=? code c) && (code c <=? 13)) || (code c =? 32).
Definition digit_value (c : ascii) : Z := code c - 48.

(** [s.split(sep)] for a one-character separator: never empty. *)
Fixpoint split_on (sep : ascii) (s : string) : list string :=
  match s with
  | EmptyString => [EmptyString]
  | String c s' =>
      if Ascii.eqb c sep then EmptyString :: split_on sep s'
      else match split_on sep s' with
           | h :: t => String c h :: t
           | [] => [String c EmptyString]
           end
  end.

Fixpoint lstrip (s : string) : string :=
  match s with
  | EmptyString => EmptyString
  | String c s' => if is_space c then lstrip s' else s
  end.

Fixpoint rstrip (s : string) : string :=
  match s with
  | EmptyString => EmptyString
  | String c s' =>
      match rstrip s' with
      | EmptyString => if is_space c then EmptyString else String c EmptyString
      | r => String c r
      end
  end.

(** [float] accepts an underscore only between two digits. *)
Fixpoint underscores_ok (prev : ascii) (s : string) : bool :=
  match s with
  | EmptyString => negb (Ascii.eqb prev "_")
  | String c s' =>
      (if Ascii.eqb c "_" then is_digit prev
       else negb (Ascii.eqb prev "_") || is_digit c)
      && underscores_ok c s'
  end.

Fixpoint drop_underscores (s : string) : string :=
  match s with
  | EmptyString => EmptyString
  | String c s' =>
      if Ascii.eqb c "_" then drop_underscores s'
      else String c (drop_underscores s')
  end.

(** The leading digits of [s] and what follows them. *)
Fixpoint span_digits (s : string) : string * string :=
  match s with
  | EmptyString => (EmptyString, EmptyString)
  | String c s' =>
      if is_digit c
      then let (ds, rest) := span_digits s' in (String c ds, rest)
      else (EmptyString, s)
  end.

Fixpoint digits_from (acc : Z) (s : string) : Z :=
  match s with
  | EmptyString => acc
  | String c s' => digits_from (10 * acc + digit_value c) s'
  end.

Definition digits_value (s : string) : Z := digits_from 0 s.

Definition parse_sign (s : string) : bool * string :=
  match s with
  | String c s' =>
      if Ascii.eqb c "-" then (true, s')
      else if Ascii.eqb c "+" then (false, s')
      else (false, s)
  | EmptyString => (false, s)
  end.

(** What may follow the mantissa: nothing, or [e], an optional sign and at
    least one digit, up to the end of the string. *)
Definition parse_exponent (s : string) : option Z :=
  match s with
  | EmptyString => Some 0
  | String c s' =>
      if Ascii.eqb c "e" || Ascii.eqb c "E"
      then let (neg, s1) := parse_sign s' in
           match span_digits s1 with
           | (String d ds, EmptyString) =>
               Some (signed neg (digits_value (String d ds)))
           | _ => None
           end
      else None
  end.

(** [float(s)] on the strings [kernel_version] builds (they contain a dot, so
    the spellings of infinity and NaN cannot occur): surrounding white space,
    a sign, digits with an optional fraction, an optional exponent; the value
    is the correctly rounded binary64.  [None] is [ValueError].  The text is
    taken to be ASCII: the Unicode white space and digits [float] accepts as
    well are not modelled. *)
Definition py_float (s : string) : option float :=
  if underscores_ok "000" s then
    let (neg, s1) := parse_sign (rstrip (lstrip (drop_underscores s))) in
    let (int_part, s2) := span_digits s1 in
    let (frac_part, s3) :=
      match s2 with
      | String c r => if Ascii.eqb c "." then span_digits r
                      else (EmptyString, s2)
      | EmptyString => (EmptyString, s2)
      end in
    match String.append int_part frac_part, parse_exponent s3 with
    | String _ _ as ds, Some ex =>
        Some (float_of_decimal neg (digits_value ds)
                (ex - Z.of_nat (String.length frac_part)))
    | _, _ => None
    end
  else None.

(** ** ADB functions *)

(** [device.shell]: the text a shell command prints on the device. *)
Definition device : Type := string -> string.

Definition invalid_device : exn :=
  PyException
    (String.append "Device name invalid. Check "
       (String.append (quoted "adb devices") " to get valid ones")).

Definition unsupported : exn :=
  NotImplementedError "Sorry. Android kernel version not supported yet".

(** [kernel_version()], lines 13-49; [None] is a device name that ADB does
    not know.  The result is the tuple
    [(ver, offset_to_comm, offset_to_parent, offset_selinux, ps_cmd)]. *)
Definition kernel_version (dev : option device)
  : outcome (float * Z * Z * list Z * string) :=
  match dev with
  | None => Raise invalid_device
  | Some shell =>
      match split_on "." (shell "uname -r") with
      | r0 :: r1 :: _ =>
          match py_float (String.append r0 (String.append "." r1)) with
          | None => Raise ValueError
          | Some ver =>
              if float_le ver lit_3_10
              then Ret (ver, 0x288, 0xe0,
                        [0xC0A77548; 0xC0A7754C; 0xC0A77550], "ps")
              else if float_gt ver lit_3_10 && float_le ver lit_3_18
              then Ret (ver, 0x444, 0xe0,
                        [0xC0C4F288; 0xC0C4F28C; 0xC0C4F280], "ps -A")
              else Raise unsupported
          end
      | _ => Raise IndexError
      end
  end.

(** [needle in hay]. *)
Fixpoint contains (needle hay : string) : bool :=
  String.prefix needle hay
  || match hay with
     | EmptyString => false
     | String _ hay' => contains needle hay'
     end.

(** [check_process_is_running], lines 52-66. *)
Definition check_process_is_running (process pscmd : string)
           (dev : option device) : outcome unit :=
  match dev with
  | None => Raise invalid_device
  | Some shell =>
      if contains process (shell pscmd) then Ret tt else Raise (SystemExit 1)
  end.

(** ** The debug session

    What the GDB stub is to the script: the target's memory, one byte per
    address, little endian words; what [x/s] prints at an address and what
    [find] reports for a name (both are answers of the transport, not
    decoded from [mem]); which of the coming [x/xw] replies are malformed
    (an empty schedule is a transport that always answers well); whether
    [target remote] is answered, whether GDB has been told to exit, and the
    commands sent so far, oldest first. *)

Inductive gdb_cmd : Type :=
| TargetRemote
| ExamineWord (addr : Z)
| ExamineString (addr : Z)
| SetWord (addr val : Z)
| Find (name : string)
| GdbExit.

Record session : Type := mkSession {
  mem : Z -> Z;
  strings : Z -> string;
  matches : string -> list Z;
  glitches : list bool;
  remote_up : bool;
  exited : bool;
  sent : list gdb_cmd
}.

(** The attributes of the [options] namespace the modes read. *)
Record options : Type := mkOptions {
  magic_name : string;
  stealth : bool;
  version : float;
  offset_to_comm : Z;
  offset_to_parent : Z;
  offset_selinux : list Z;
  ps_cmd : string
}.

(** Computations on a session that may raise or keep looping. *)
Definition M (A : Type) : Type := session -> outcome A * session.

Definition ret {A} (a : A) : M A := fun s => (Ret a, s).
Definition raise {A} (e : exn) : M A := fun s => (Raise e, s).
Definition spin {A} : M A := fun s => (Spin, s).
Definition lift {A} (o : outcome A) : M A := fun s => (o, s).

Definition bind {A B} (m : M A) (k : A -> M B) : M B :=
  fun s => match m s with
           | (Ret a, s') => k a s'
           | (Raise e, s') => (Raise e, s')
           | (Spin, s') => (Spin, s')
           end.

Notation "x <- m ;; k" := (bind m (fun x => k))
  (at level 61, m at next level, right associativity).
Notation "m ;;; k" := (bind m (fun _ => k))
  (at level 61, right associativity).

(** Byte [i] of the word [v]. *)
Definition byte_of (v i : Z) : Z := (v / 256 ^ i) mod 256.

(** [set *(unsigned int* ) (a) = v]: four bytes, low byte first. *)
Definition store_word (a v : Z) (m : Z -> Z) : Z -> Z :=
  fun x => if (a <=? x) && (x <? a + 4) then byte_of v (x - a) else m x.

(** The word [x/xw a] shows. *)
Definition load_word (a : Z) (m : Z -> Z) : Z :=
  m a mod 256 + 256 * (m (a + 1) mod 256)
  + 65536 * (m (a + 2) mod 256) + 16777216 * (m (a + 3) mod 256).

Definition log_cmd (c : gdb_cmd) (s : session) : session :=
  mkSession (mem s) (strings s) (matches s) (glitches s) (remote_up s)
            (exited s) (sent s ++ [c]).

(** The reply to [x/xw addr] once the source has taken it apart: the word, or
    a reply on which that raises one of the four exceptions [read_mem]
    catches (a timeout included). *)
Inductive reply : Type :=
| WellFormed (r : Z)
| Malformed.

Definition gdb_examine_word (addr : Z) : session -> reply * session :=
  fun s =>
    let s1 := log_cmd (ExamineWord addr) s in
    match glitches s with
    | true :: g =>
        (Malformed,
         mkSession (mem s1) (strings s1) (matches s1) g (remote_up s1)
                   (exited s1) (sent s1))
    | false :: g =>
        (WellFormed (load_word addr (mem s)),
         mkSession (mem s1) (strings s1) (matches s1) g (remote_up s1)
                   (exited s1) (sent s1))
    | [] => (WellFormed (load_word addr (mem s)), s1)
    end.

(** ** GDB functions: the methods of [GDB_stub_controller] *)

Module GDB_stub_controller.

(** [stop], lines 116-118. *)
Definition stop : M unit :=
  fun s =>
    let s1 := log_cmd GdbExit s in
    (Ret tt,
     mkSession (mem s1) (strings s1) (matches s1) (glitches s1) (remote_up s1)
               true (sent s1)).

(** [__init__], lines 101-114. *)
Definition init : M unit :=
  fun s =>
    let s1 := log_cmd TargetRemote s in
    if remote_up s1 then (Ret tt, s1)
    else (stop ;;;
          raise (PyException "GDB server not reachable. Did you start it?")) s1.

(** [write_mem], lines 120-122. *)
Definition write_mem (addr val : Z) : M unit :=
  fun s =>
    let s1 := log_cmd (SetWord addr val) s in
    (Ret tt,
     mkSession (store_word addr val (mem s1)) (strings s1) (matches s1)
               (glitches s1) (remote_up s1) (exited s1) (sent s1)).

(** [read_mem], lines 124-144.  The source calls itself once, with [rec=1];
    [depth] bounds that recursion and two levels are all it uses.  The call
    on line 140 is a statement, not a [return]: when it comes back the outer
    call falls off the end of the function and yields [None]. *)
Fixpoint read_mem_depth (depth : nat) (addr rec : Z) : M pyval :=
  match depth with
  | O => spin
  | S depth' =>
      fun s =>
        match gdb_examine_word addr s with
        | (WellFormed r, s1) => (Ret (PyInt r), s1)
        | (Malformed, s1) =>
            if rec =? 0
            then (read_mem_depth depth' addr 1 ;;; ret PyNone) s1
            else (stop ;;; raise (PyException "GDB timeout reached. Quit")) s1
        end
  end.

Definition read_mem (addr rec : Z) : M pyval := read_mem_depth 2 addr rec.

(** [read_str], lines 146-154. *)
Definition read_str (addr : Z) : M string :=
  fun s => (Ret (strings s addr), log_cmd (ExamineString addr) s).

(** [find], lines 156-170. *)
Definition find (name : string) : M (list Z) :=
  fun s => (Ret (matches s name), log_cmd (Find name) s).

(** [l[i]]. *)
Definition subscript (l : list Z) (i : nat) : M Z :=
  match nth_error l i with
  | Some x => ret x
  | None => raise IndexError
  end.

(** [disable_selinux], lines 172-181. *)
Definition disable_selinux (o : options) : M unit :=
  a0 <- subscript (offset_selinux o) 0 ;; write_mem a0 0 ;;;
  a1 <- subscript (offset_selinux o) 1 ;; write_mem a1 0 ;;;
  a2 <- subscript (offset_selinux o) 2 ;; write_mem a2 0.

(** [for x in l: body(x)]. *)
Fixpoint for_each {A} (l : list A) (body : A -> M unit) : M unit :=
  match l with
  | [] => ret tt
  | x :: l' => body x ;;; for_each l' body
  end.

(** [set_full_capabilities], lines 183-188. *)
Definition set_full_capabilities (cred_addr : pyval) : M unit :=
  for_each [0x30; 0x34; 0x38; 0x3c; 0x40; 0x44]
    (fun ofs => a <- lift (py_add cred_addr ofs) ;; write_mem a 0xffffffff).

(** [set_root_ids], lines 190-201. *)
Definition set_root_ids (cred_addr : pyval) (effective : bool) : M unit :=
  for_each [0x04; 0x08; 0x0c; 0x10; 0x1c; 0x20]
    (fun ofs => a <- lift (py_add cred_addr ofs) ;; write_mem a 0) ;;;
  if effective
  then (a <- lift (py_add cred_addr 0x14) ;; write_mem a 0 ;;;
        b <- lift (py_add cred_addr 0x18) ;; write_mem b 0)
  else ret tt.

(** The test of line 212. *)
Definition aligned (o : options) (addr : Z) : bool :=
  addr mod 16 =? offset_to_comm o mod 16.

(** The loop of lines 215-222 over the candidates that are left. *)
Fixpoint scan_candidates (o : options) (candidates : list Z) : M Z :=
  match candidates with
  | [] => raise (PyException "Could not find process task struct")
  | c :: rest =>
      magic_cred_ptr1 <- read_mem (c - 8) 0 ;;
      magic_cred_ptr2 <- read_mem (c - 4) 0 ;;
      if py_eq magic_cred_ptr1 magic_cred_ptr2
      then ret (c - offset_to_comm o)
      else scan_candidates o rest
  end.

(** [get_process_task_struct], lines 203-222. *)
Definition get_process_task_struct (o : options) (process : string) : M Z :=
  addresses <- find process ;;
  scan_candidates o (filter (aligned o) addresses).

(** [get_adbd_cred_struct], lines 224-237: a [while True] loop, here with
    fuel; [Spin] is a loop that has not ended when the fuel is gone. *)
Fixpoint get_adbd_cred_struct (fuel : nat) (o : options) (cur : Z) : M pyval :=
  match fuel with
  | O => spin
  | S fuel' =>
      parent_struct_addr <-
        read_mem (cur + offset_to_comm o - offset_to_parent o) 0 ;;
      match parent_struct_addr with
      | PyNone => raise TypeError
      | PyInt parent =>
          parent_struct_name <- read_str (parent + offset_to_comm o) ;;
          if String.eqb parent_struct_name (quoted "adbd")
          then read_mem (parent + offset_to_comm o - 4) 0
          else get_adbd_cred_struct fuel' o parent
      end
  end.

End GDB_stub_controller.

Import GDB_stub_controller.

(** ** Emuroot options: the three modes

    The stager thread and the five second sleep happen on the device; a mode
    sees their effect through [dev] and the session it opens. *)

(** [single_mode], lines 242-267. *)
Definition single_mode (o : options) (dev : option device) : M unit :=
  lift (check_process_is_running (magic_name o) (ps_cmd o) dev) ;;;
  init ;;;
  magic <- get_process_task_struct o (magic_name o) ;;
  magic_cred_ptr <- read_mem (magic + offset_to_comm o - 8) 0 ;;
  set_root_ids magic_cred_ptr true ;;;
  set_full_capabilities magic_cred_ptr ;;;
  disable_selinux o ;;;
  stop.

(** [setuid_mode], lines 270-304. *)
Definition setuid_mode (fuel : nat) (o : options) (dev : option device)
  : M unit :=
  lift (check_process_is_running "STAGER" (ps_cmd o) dev) ;;;
  init ;;;
  magic <- get_process_task_struct o "STAGER" ;;
  adbd_cred_ptr <- get_adbd_cred_struct fuel o magic ;;
  set_full_capabilities adbd_cred_ptr ;;;
  disable_selinux o ;;;
  magic_cred_ptr <- read_mem (magic + offset_to_comm o - 8) 0 ;;
  set_root_ids magic_cred_ptr true ;;;
  set_full_capabilities magic_cred_ptr ;;;
  stop.

(** [adbd_mode], lines 307-344. *)
Definition adbd_mode (fuel : nat) (o : options) (dev : option device)
  : M unit :=
  lift (check_process_is_running "STAGER" (ps_cmd o) dev) ;;;
  init ;;;
  magic <- get_process_task_struct o "STAGER" ;;
  adbd_cred_ptr <- get_adbd_cred_struct fuel o magic ;;
  set_full_capabilities adbd_cred_ptr ;;;
  set_root_ids adbd_cred_ptr (negb (stealth o)) ;;;
  disable_selinux o ;;;
  magic_cred_ptr <- read_mem (magic + offset_to_comm o - 8) 0 ;;
  set_root_ids magic_cred_ptr true ;;;
  set_full_capabilities magic_cred_ptr ;;;
  stop.

(** Lines 392-396: pin down the kernel version, then run the mode. *)
Definition main (mode_function : options -> option device -> M unit)
           (magic : string) (stealthy : bool) (dev : option device) : M unit :=
  match kernel_version dev with
  | Ret (ver, comm, parent, selinux, ps) =>
      mode_function (mkOptions magic stealthy ver comm parent selinux ps) dev
  | Raise e => raise e
  | Spin => spin
  end.

(** ** Vocabulary of the statements *)

Fixpoint string_forall (p : ascii -> bool) (s : string) : bool :=
  match s with
  | EmptyString => true
  | String c s' => p c && string_forall p s'
  end.

Definition all_digits (s : string) : bool := string_forall is_digit s.

Definition plain_char (c : ascii) : bool :=
  is_digit c || Ascii.eqb c "-" || Ascii.eqb c ".".

(** A two-part version as [uname -r] prints it: [major.minor], with a minus
    sign in front when [neg]. *)
Definition version_text (neg : bool) (major minor : string) : string :=
  String.append (if neg then "-" else EmptyString)
    (String.append major (String "." minor)).

(** The number that text denotes, exactly. *)
Definition version_value (neg : bool) (major minor : string) : Q :=
  Qmake (signed neg (digits_value (String.append major minor)))
        (Z.to_pos (10 ^ Z.of_nat (String.length minor))).

(** What may follow the two parts: nothing, or a dot and anything. *)
Definition dotted_tail (tail : string) : Prop :=
  tail = EmptyString \/ exists rest, tail = String "." rest.

(** The two profiles of the catalog, without the version they were picked
    for. *)
Definition profile_A : Z * Z * list Z * string :=
  (0x288, 0xe0, [0xC0A77548; 0xC0A7754C; 0xC0A77550], "ps").
Definition profile_B : Z * Z * list Z * string :=
  (0x444, 0xe0, [0xC0C4F288; 0xC0C4F28C; 0xC0C4F280], "ps -A").

Definition resolves (r : outcome (float * Z * Z * list Z * string))
           (p : Z * Z * list Z * string) : Prop :=
  exists ver, r = let '(c, pa, se, ps) := p in Ret (ver, c, pa, se, ps).

(** A float as a signed count of units of [2^-1074]; the infinities sit at
    the first count no finite float reaches. *)
Definition float_key (x : float) : Z :=
  match x with
  | Finite s m e => signed s (ulps m e)
  | Infinity s => signed s (2 ^ 2098)
  end.

Definition in_range (x : float) : Prop :=
  match x with
  | Finite _ m e => 0 <= ulps m e < 2 ^ 2098
  | Infinity _ => True
  end.

(** The value [binary64] rounds [n / d] to, before the overflow test. *)
Definition units (n d : Z) : Z :=
  round_half_even (n * 2 ^ 1074) (d * 2 ^ binary64_shift n d)
  * 2 ^ binary64_shift n d.

(** [s] after more commands were sent. *)
Definition logged (l : list gdb_cmd) (s : session) : session :=
  mkSession (mem s) (strings s) (matches s) (glitches s) (remote_up s)
            (exited s) (sent s ++ l).

(** The two reads the locator makes for each candidate. *)
Definition probes (cs : list Z) : list gdb_cmd :=
  flat_map (fun c => [ExamineWord (c - 8); ExamineWord (c - 4)]) cs.

(** Both heuristics hold at [a]: alignment and equal preceding words. *)
Definition accepted (o : options) (s : session) (a : Z) : Prop :=
  a mod 16 = offset_to_comm o mod 16
  /\ load_word (a - 8) (mem s) = load_word (a - 4) (mem s).

(** [s] after the word writes [ws], in order. *)
Definition written (ws : list (Z * Z)) (s : session) : session :=
  fold_left (fun s w => snd (write_mem (fst w) (snd w) s)) ws s.

(** [x] is a byte of one of the words [ws] writes. *)
Definition covered (ws : list (Z * Z)) (x : Z) : Prop :=
  exists a v, In (a, v) ws /\ a <= x < a + 4.

(** All the words of [ws] are made of the byte [b]. *)
Definition uniform (b : Z) (ws : list (Z * Z)) : Prop :=
  forall a v i, In (a, v) ws -> 0 <= i < 4 -> byte_of v i = b.

Definition cap_offsets : list Z := [0x30; 0x34; 0x38; 0x3c; 0x40; 0x44].
Definition id_offsets : list Z := [0x04; 0x08; 0x0c; 0x10; 0x1c; 0x20].
Definition eid_offsets : list Z := [0x14; 0x18].

Definition words_at (c v : Z) (ofs : list Z) : list (Z * Z) :=
  map (fun o => (c + o, v)) ofs.

Definition commands (ws : list (Z * Z)) : list gdb_cmd :=
  map (fun w => SetWord (fst w) (snd w)) ws.

(** [m] only adds commands satisfying [P] to the log, and leaves the search
    results alone. *)
Definition only_sends {A} (P : gdb_cmd -> Prop) (m : M A) : Prop :=
  forall s, exists l, sent (snd (m s)) = sent s ++ l /\ Forall P l
                      /\ matches (snd (m s)) = matches s.

(** [c] is a read of a preceding word of one of [cs], or the exit. *)
Definition probe_of (cs : list Z) (c : gdb_cmd) : Prop :=
  c = GdbExit
  \/ exists a, In a cs /\ (c = ExamineWord (a - 8) \/ c = ExamineWord (a - 4)).

(** The parent structure the walk reads for [cur], and its [n]-th iterate. *)
Definition parent_of (o : options) (s : session) (cur : Z) : Z :=
  load_word (cur + offset_to_comm o - offset_to_parent o) (mem s).

Fixpoint ancestor (o : options) (s : session) (n : nat) (cur : Z) : Z :=
  match n with
  | O => cur
  | S n' => ancestor o s n' (parent_of o s cur)
  end.

Definition named_adbd (o : options) (s : session) (t : Z) : bool :=
  String.eqb (strings s (t + offset_to_comm o)) (quoted "adbd").

(** The parent chain of [start] comes back to [start] after [p + 1] steps and
    none of the structures on it is named adbd. *)
Definition cyclic_without_adbd (o : options) (s : session) (start : Z)
           (p : nat) : bool :=
  (ancestor o s (S p) start =? start)
  && forallb (fun i => negb (named_adbd o s (ancestor o s (S i) start)))
             (seq 0 (S p)).

(** The words daemon mode writes for adbd and for SELinux, and those every
    staged mode writes for the stager itself. *)
Definition daemon_patch (o : options) (adbd : Z) : list (Z * Z) :=
  words_at adbd 0xffffffff cap_offsets
  ++ words_at adbd 0 (id_offsets ++ if negb (stealth o) then eid_offsets else [])
  ++ map (fun f => (f, 0)) (offset_selinux o).

Definition own_patch (mc : Z) : list (Z * Z) :=
  words_at mc 0 (id_offsets ++ eid_offsets)
  ++ words_at mc 0xffffffff cap_offsets.

(** ** Simulated targets *)

(** A memory holding the given words, zero elsewhere. *)
Definition word_table (ws : list (Z * Z)) : Z -> Z :=
  fun x =>
    match List.find (fun w => (fst w <=? x) && (x <? fst w + 4)) ws with
    | Some w => byte_of (snd w) (x - fst w)
    | None => 0
    end.

Definition string_table (ss : list (Z * string)) : Z -> string :=
  fun x =>
    match List.find (fun w => fst w =? x) ss with
    | Some w => snd w
    | None => EmptyString
    end.

Definition match_table (name : string) (hits : list Z) : string -> list Z :=
  fun n => if String.eqb n name then hits else [].

(** A device that prints [uname] for [uname -r] and [ps] for anything else. *)
Definition device_of (uname ps : string) : device :=
  fun cmd => if String.eqb cmd "uname -r" then uname else ps.

(** The options a run has once profile A is resolved. *)
Definition options_A (name : string) (stealthy : bool) : options :=
  mkOptions name stealthy lit_3_10 0x288 0xe0
            [0xC0A77548; 0xC0A7754C; 0xC0A77550] "ps".

(** STAGER at [0xC1000000], its parent sh at [0xC1001000], whose parent adbd
    is at [0xC1002000]; the name STAGER is also found at a misaligned
    address. *)
Definition chain_session : session :=
  mkSession
    (word_table [(0xC1000280, 0xC2000000); (0xC1000284, 0xC2000000);
                 (0xC10001A8, 0xC1001000); (0xC10011A8, 0xC1002000);
                 (0xC1002280, 0xC2001000); (0xC1002284, 0xC2001000)])
    (string_table [(0xC1000288, quoted "STAGER"); (0xC1001288, quoted "sh");
                   (0xC1002288, quoted "adbd")])
    (match_table "STAGER" [0xC0F00014; 0xC1000288])
    [] true false [].

(** The same two processes, but the parent of sh is STAGER again. *)
Definition cycle_session : session :=
  mkSession
    (word_table [(0xC1000280, 0xC2000000); (0xC1000284, 0xC2000000);
                 (0xC10001A8, 0xC1001000); (0xC10011A8, 0xC1000000)])
    (string_table [(0xC1000288, quoted "STAGER"); (0xC1001288, quoted "sh")])
    (match_table "STAGER" [0xC1000288])
    [] true false [].

(** The name shell at [0x10010010], with equal words before it. *)
Definition shell_at_10 : session :=
  mkSession
    (word_table [(0x10010008, 0x20000000); (0x1001000C, 0x20000000)])
    (string_table [(0x10010010, quoted "shell")])
    (match_table "shell" [0x10010010])
    [] true false [].

(** The name shell at [0x10010018], with equal words before it. *)
Definition shell_at_18 : session :=
  mkSession
    (word_table [(0x10010010, 0x20000000); (0x10010014, 0x20000000)])
    (string_table [(0x10010018, quoted "shell")])
    (match_table "shell" [0x10010018])
    [] true false [].

(** The name sh found at two places four bytes apart. *)
Definition twin_session : session :=
  mkSession
    (word_table [(0xC0001010, 0xC2000000); (0xC0001014, 0x00006873)])
    (string_table [(0xC0001014, quoted "sh"); (0xC0001018, quoted "sh")])
    (match_table "sh" [0xC0001014; 0xC0001018])
    [] true false [].

(** A target on which the name shell is found nowhere. *)
Definition absent_session : session :=
  mkSession (word_table []) (string_table []) (match_table "shell" [])
            [] true false [].

(** [chain_session] behind a transport whose next reply is malformed and the
    one after it well formed, or malformed too. *)
Definition glitch_session (second : bool) : session :=
  mkSession (mem chain_session) (strings chain_session)
            (matches chain_session) [true; second] true false [].

(** ** Substrings, closed sessions and what a command leaves alone *)

Definition no_dot (c : ascii) : bool := negb (Ascii.eqb c ".").

(** A character of the ASCII range. *)
Definition is_ascii (c : ascii) : bool := code c <? 128.

(** [hay] is [needle] with something before and something after. *)
Definition occurs_in (needle hay : string) : Prop :=
  exists pre post, hay = String.append pre (String.append needle post).

(** [s] once GDB has been told to exit. *)
Definition closed (s : session) : session :=
  mkSession (mem s) (strings s) (matches s) (glitches s) (remote_up s) true
            (sent s ++ [GdbExit]).

(** [m] changes nothing on the target: the memory and what the transport
    answers stay as they are, and no write is among the commands it sends. *)
Definition reads_only {A} (m : M A) : Prop :=
  forall s,
    mem (snd (m s)) = mem s /\ strings (snd (m s)) = strings s
    /\ matches (snd (m s)) = matches s
    /\ exists l, sent (snd (m s)) = sent s ++ l
                 /\ forall a v, ~ In (SetWord a v) l.

(** A stub that does not answer [target remote]. *)
Definition unreachable_session : session :=
  mkSession (word_table []) (string_table []) (match_table "shell" [])
            [] false false [].

(** [chain_session] behind a transport with the fault schedule [g]. *)
Definition scheduled_session (g : list bool) : session :=
  mkSession (mem chain_session) (strings chain_session)
            (matches chain_session) g true false [].

(** [m] tells GDB to exit exactly when it ends with the timeout error. *)
Definition exits_on_timeout {A} (m : M A) : Prop :=
  forall s,
    exited s = false ->
    (exited (snd (m s)) = true
     <-> fst (m s) = Raise (PyException "GDB timeout reached. Quit")).

(** ** Rounding to binary64 and reading versions *)

(** Rounding to the nearest integer stays on the same side of an integer
    bound. *)
Lemma rhe_lower n d K : 0 < d -> K * d <= n -> K <= round_half_even n d.
Proof.
  intros Hd Hn. unfold round_half_even.
  pose proof (Z.div_mod n d ltac:(lia)) as E.
  pose proof (Z.mod_pos_bound n d Hd) as B.
  assert (K <= n / d) by nia.
  destruct (2 * (n mod d) <? d); [lia|].
  destruct (d <? 2 * (n mod d)); [lia|].
  destruct (Z.even (n / d)); lia.
Qed.

Lemma rhe_upper n d K : 0 < d -> n <= K * d -> round_half_even n d <= K.
Proof.
  intros Hd Hn. unfold round_half_even.
  pose proof (Z.div_mod n d ltac:(lia)) as E.
  pose proof (Z.mod_pos_bound n d Hd) as B.
  assert (n / d <= K) by nia.
  assert (n / d = K -> n mod d = 0) by nia.
  destruct (2 * (n mod d) <? d) eqn:E1; [lia|].
  apply Z.ltb_ge in E1.
  destruct (d <? 2 * (n mod d)); [lia|].
  destruct (Z.even (n / d)); lia.
Qed.

(** Rounding to the nearest integer, ties to even, is monotone in the
    fraction. *)
Lemma rhe_mono n1 d1 n2 d2 :
  0 < d1 -> 0 < d2 -> n1 * d2 <= n2 * d1 ->
  round_half_even n1 d1 <= round_half_even n2 d2.
Proof.
  intros H1 H2 H.
  unfold round_half_even.
  pose proof (Z.div_mod n1 d1 ltac:(lia)) as E1.
  pose proof (Z.mod_pos_bound n1 d1 H1) as B1.
  pose proof (Z.div_mod n2 d2 ltac:(lia)) as E2.
  pose proof (Z.mod_pos_bound n2 d2 H2) as B2.
  set (q1 := n1 / d1) in *. set (r1 := n1 mod d1) in *.
  set (q2 := n2 / d2) in *. set (r2 := n2 mod d2) in *.
  assert (Hq : q1 <= q2).
  { destruct (Z_le_gt_dec q1 q2) as [L|G]; [exact L|exfalso].
    assert (d1 * d2 * (q2 + 1) <= d1 * d2 * q1)
      by (apply Z.mul_le_mono_nonneg_l; nia).
    assert (d1 * r2 < d1 * d2) by (apply Z.mul_lt_mono_pos_l; lia).
    assert (0 <= r1 * d2) by nia.
    rewrite E1, E2 in H. nia. }
  assert (Hr : q1 = q2 -> r1 * d2 <= r2 * d1).
  { intros Eq. rewrite E1, E2, Eq in H. nia. }
  destruct (Z.eq_dec q1 q2) as [Eq|Ne].
  - specialize (Hr Eq). rewrite <- Eq.
    destruct (2 * r1 <? d1) eqn:A1; [destruct (2 * r2 <? d2); [lia|];
       destruct (d2 <? 2 * r2); [lia|]; destruct (Z.even q1); lia|].
    apply Z.ltb_ge in A1.
    destruct (d1 <? 2 * r1) eqn:A2.
    + apply Z.ltb_lt in A2.
      assert (d2 < 2 * r2) by nia.
      destruct (2 * r2 <? d2) eqn:A3; [apply Z.ltb_lt in A3; lia|].
      destruct (d2 <? 2 * r2) eqn:A4; [lia|apply Z.ltb_ge in A4; lia].
    + apply Z.ltb_ge in A2.
      assert (d2 <= 2 * r2) by nia.
      destruct (2 * r2 <? d2) eqn:A3; [apply Z.ltb_lt in A3; lia|].
      destruct (d2 <? 2 * r2) eqn:A4; [destruct (Z.even q1); lia|].
      destruct (Z.even q1); lia.
  - assert (q1 + 1 <= q2) by lia.
    destruct (2 * r1 <? d1); destruct (d1 <? 2 * r1); destruct (Z.even q1);
      destruct (2 * r2 <? d2); destruct (d2 <? 2 * r2); destruct (Z.even q2); lia.
Qed.

Lemma shift_nonneg n d : 0 <= binary64_shift n d.
Proof. unfold binary64_shift. lia. Qed.

(** On the grid [binary64_shift] picks, the scaled value is below [2^53]. *)
Lemma shift_upper n d :
  0 <= n -> 0 < d ->
  n * 2 ^ 1074 < 2 ^ 53 * (d * 2 ^ binary64_shift n d).
Proof.
  intros Hn Hd.
  pose proof (shift_nonneg n d) as Hs.
  unfold binary64_shift in *.
  set (T := n * 2 ^ 1126 / d) in *.
  set (s := Z.max (Z.log2 T - 104) 0) in *.
  assert (HT0 : 0 <= T) by (apply Z.div_pos; [apply Z.mul_nonneg_nonneg; [lia|apply Z.pow_nonneg; lia]|lia]).
  assert (HT : T + 1 <= 2 ^ (Z.log2 T + 1)).
  { destruct (Z.eq_dec T 0) as [E|E]; [rewrite E; simpl; lia|].
    pose proof (Z.log2_spec T ltac:(lia)). lia. }
  assert (Hdiv : n * 2 ^ 1126 < (T + 1) * d).
  { pose proof (Z.div_mod (n * 2 ^ 1126) d ltac:(lia)).
    pose proof (Z.mod_pos_bound (n * 2 ^ 1126) d Hd). fold T in H. nia. }
  assert (Hp : 2 ^ (Z.log2 T + 1) <= 2 ^ (s + 105))
    by (apply Z.pow_le_mono_r; lia).
  assert (E1 : 2 ^ 1126 = 2 ^ 1074 * 2 ^ 52) by (rewrite <- Z.pow_add_r by lia; reflexivity).
  assert (E2 : 2 ^ (s + 105) = 2 ^ 53 * 2 ^ s * 2 ^ 52).
  { replace (s + 105) with (53 + s + 52) by lia.
    rewrite !Z.pow_add_r by lia. reflexivity. }
  assert (H52 : 0 < 2 ^ 52) by (apply Z.pow_pos_nonneg; lia).
  rewrite E1 in Hdiv. rewrite E2 in Hp.
  assert ((T + 1) * d <= 2 ^ 53 * 2 ^ s * 2 ^ 52 * d) by (apply Z.mul_le_mono_nonneg_r; lia).
  apply (Z.mul_lt_mono_pos_r (2 ^ 52)); [exact H52|].
  generalize dependent (2 ^ 52). generalize dependent (2 ^ 53).
  generalize dependent (2 ^ 1074). generalize dependent (2 ^ s). intros. nia.
Qed.

(** Above the subnormal range it is at least [2^52]. *)
Lemma shift_lower n d :
  0 <= n -> 0 < d -> 0 < binary64_shift n d ->
  2 ^ 52 * (d * 2 ^ binary64_shift n d) <= n * 2 ^ 1074.
Proof.
  intros Hn Hd Hs.
  unfold binary64_shift in *.
  set (T := n * 2 ^ 1126 / d) in *.
  assert (Es : Z.max (Z.log2 T - 104) 0 = Z.log2 T - 104) by lia.
  rewrite Es in *. set (s := Z.log2 T - 104) in *.
  assert (HT0 : 0 < T).
  { destruct (Z_lt_le_dec 0 T); [assumption|].
    pose proof (Z.log2_nonpos T ltac:(lia)). lia. }
  pose proof (Z.log2_spec T HT0) as [HL _].
  replace (Z.log2 T) with (s + 104) in HL by lia.
  assert (Hdiv : T * d <= n * 2 ^ 1126).
  { pose proof (Z.div_mod (n * 2 ^ 1126) d ltac:(lia)).
    pose proof (Z.mod_pos_bound (n * 2 ^ 1126) d Hd). fold T in H. nia. }
  assert (E1 : 2 ^ 1126 = 2 ^ 1074 * 2 ^ 52) by (rewrite <- Z.pow_add_r by lia; reflexivity).
  assert (E2 : 2 ^ (s + 104) = 2 ^ 52 * 2 ^ s * 2 ^ 52).
  { replace (s + 104) with (52 + s + 52) by lia.
    rewrite !Z.pow_add_r by lia. reflexivity. }
  assert (H52 : 0 < 2 ^ 52) by (apply Z.pow_pos_nonneg; lia).
  rewrite E1 in Hdiv. rewrite E2 in HL.
  assert (2 ^ 52 * 2 ^ s * 2 ^ 52 * d <= T * d) by (apply Z.mul_le_mono_nonneg_r; lia).
  apply (Z.mul_le_mono_pos_r _ _ (2 ^ 52)); [exact H52|].
  generalize dependent (2 ^ 52).
  generalize dependent (2 ^ 1074). generalize dependent (2 ^ s). intros. nia.
Qed.

(** The grid gets coarser as the value grows. *)
Lemma shift_mono n1 d1 n2 d2 :
  0 <= n1 -> 0 < d1 -> 0 < d2 -> n1 * d2 <= n2 * d1 ->
  binary64_shift n1 d1 <= binary64_shift n2 d2.
Proof.
  intros Hn H1 H2 H. unfold binary64_shift.
  assert (HP : 0 < 2 ^ 1126) by (apply Z.pow_pos_nonneg; lia).
  assert (n1 * 2 ^ 1126 / d1 <= n2 * 2 ^ 1126 / d2).
  { apply Z.div_le_lower_bound; [lia|].
    pose proof (Z.div_mod (n1 * 2 ^ 1126) d1 ltac:(lia)) as E.
    pose proof (Z.mod_pos_bound (n1 * 2 ^ 1126) d1 H1) as B.
    set (T := n1 * 2 ^ 1126 / d1) in *.
    assert (T * d1 <= n1 * 2 ^ 1126) by lia.
    assert (0 <= T) by (apply Z.div_pos; nia).
    apply (Z.mul_le_mono_pos_r _ _ d1); [lia|].
    generalize dependent (2 ^ 1126). intros. nia. }
  pose proof (Z.log2_le_mono _ _ H0). lia.
Qed.

(** Rounding to binary64 is monotone. *)
Lemma units_mono n1 d1 n2 d2 :
  0 <= n1 -> 0 < d1 -> 0 < d2 -> n1 * d2 <= n2 * d1 ->
  units n1 d1 <= units n2 d2.
Proof.
  intros Hn H1 H2 H. unfold units.
  assert (Hn2 : 0 <= n2) by nia.
  pose proof (shift_mono n1 d1 n2 d2 Hn H1 H2 H) as Hs.
  pose proof (shift_nonneg n1 d1) as Hs1.
  set (s1 := binary64_shift n1 d1) in *.
  set (s2 := binary64_shift n2 d2) in *.
  assert (P1 : 0 < 2 ^ s1) by (apply Z.pow_pos_nonneg; lia).
  assert (P2 : 0 < 2 ^ s2) by (apply Z.pow_pos_nonneg; lia).
  assert (PC : 0 < 2 ^ 1074) by (apply Z.pow_pos_nonneg; lia).
  destruct (Z.eq_dec s1 s2) as [E|NE].
  - rewrite <- E. apply Z.mul_le_mono_nonneg_r; [lia|].
    apply rhe_mono; [nia|nia|].
    set (c := 2 ^ 1074) in *. set (p := 2 ^ s1) in *. clearbody c p.
    assert (n1 * d2 * (c * p) <= n2 * d1 * (c * p))
      by (apply Z.mul_le_mono_nonneg_r; nia).
    nia.
  - assert (U1 : round_half_even (n1 * 2 ^ 1074) (d1 * 2 ^ s1) <= 2 ^ 53).
    { apply rhe_upper; [nia|]. pose proof (shift_upper n1 d1 Hn H1). fold s1 in H0. lia. }
    assert (L2 : 2 ^ 52 <= round_half_even (n2 * 2 ^ 1074) (d2 * 2 ^ s2)).
    { apply rhe_lower; [nia|]. apply shift_lower; fold s2; lia. }
    assert (E2 : 2 ^ s2 = 2 ^ s1 * 2 ^ (s2 - s1))
      by (rewrite <- Z.pow_add_r by lia; f_equal; lia).
    assert (2 <= 2 ^ (s2 - s1)).
    { change 2 with (2 ^ 1) at 1. apply Z.pow_le_mono_r; lia. }
    assert (E53 : 2 ^ 53 = 2 * 2 ^ 52) by reflexivity.
    set (m1 := round_half_even (n1 * 2 ^ 1074) (d1 * 2 ^ s1)) in *.
    set (m2 := round_half_even (n2 * 2 ^ 1074) (d2 * 2 ^ s2)) in *.
    clearbody m1 m2.
    rewrite E2. rewrite E53 in U1.
    assert (0 < 2 ^ 52) by (apply Z.pow_pos_nonneg; lia).
    set (c := 2 ^ 52) in *. set (g := 2 ^ (s2 - s1)) in *.
    set (p1 := 2 ^ s1) in *.
    clearbody c g p1.
    assert (A1 : m1 * p1 <= 2 * c * p1) by (apply Z.mul_le_mono_nonneg_r; lia).
    assert (A2 : c * (p1 * g) <= m2 * (p1 * g)) by (apply Z.mul_le_mono_nonneg_r; nia).
    assert (A3 : c * p1 * 2 <= c * p1 * g) by (apply Z.mul_le_mono_nonneg_l; nia).
    clear - A1 A2 A3. lia.
Qed.

(** On floats in range, [<=] and [<] compare the keys. *)
Lemma float_le_key x y :
  in_range x -> in_range y -> float_le x y = (float_key x <=? float_key y).
Proof.
  assert (0 < 2 ^ 2098) by (apply Z.pow_pos_nonneg; lia).
  destruct x as [s1 m1 e1|[]], y as [s2 m2 e2|[]];
    unfold in_range, float_le, float_key, signed; intros Hx Hy;
    try destruct s1; try destruct s2; try reflexivity;
    symmetry; first [apply Z.leb_le; lia | apply Z.leb_gt; lia].
Qed.

Lemma float_lt_key x y :
  in_range x -> in_range y -> float_lt x y = (float_key x <? float_key y).
Proof.
  assert (0 < 2 ^ 2098) by (apply Z.pow_pos_nonneg; lia).
  destruct x as [s1 m1 e1|[]], y as [s2 m2 e2|[]];
    unfold in_range, float_lt, float_key, signed, negb; intros Hx Hy;
    try destruct s1; try destruct s2; try reflexivity;
    symmetry; first [apply Z.ltb_lt; lia | apply Z.ltb_ge; lia].
Qed.

Lemma units_nonneg n d : 0 <= n -> 0 < d -> 0 <= units n d.
Proof.
  intros Hn Hd. unfold units.
  pose proof (shift_nonneg n d).
  assert (0 < 2 ^ binary64_shift n d) by (apply Z.pow_pos_nonneg; lia).
  assert (0 <= n * 2 ^ 1074) by (apply Z.mul_nonneg_nonneg; [lia|apply Z.pow_nonneg; lia]).
  apply Z.mul_nonneg_nonneg; [|lia].
  apply rhe_lower; nia.
Qed.

(** The key of a rounded value is that value, capped at the first count
    out of range. *)
Lemma binary64_key neg n d :
  0 <= n -> 0 < d ->
  in_range (binary64 neg n d)
  /\ float_key (binary64 neg n d) = signed neg (Z.min (units n d) (2 ^ 2098)).
Proof.
  intros Hn Hd. pose proof (units_nonneg n d Hn Hd) as HU.
  pose proof (shift_nonneg n d) as Hs.
  unfold binary64, units in *.
  set (s := binary64_shift n d) in *.
  set (m := round_half_even (n * 2 ^ 1074) (d * 2 ^ s)) in *.
  destruct (2 ^ 2098 <=? m * 2 ^ s) eqn:Ov.
  - apply Z.leb_le in Ov. split; [exact I|]. unfold float_key. f_equal. lia.
  - apply Z.leb_gt in Ov.
    destruct (m =? 2 ^ 53) eqn:Em.
    + apply Z.eqb_eq in Em.
      assert (E : ulps (2 ^ 52) (s - 1073) = m * 2 ^ s).
      { unfold ulps. replace (s - 1073 + 1074) with (1 + s) by lia.
        rewrite Z.pow_add_r by lia. rewrite Em.
        change (2 ^ 53) with (2 ^ 52 * 2 ^ 1). lia. }
      unfold in_range, float_key. rewrite E. split; [lia|f_equal; lia].
    + assert (E : ulps m (s - 1074) = m * 2 ^ s).
      { unfold ulps. replace (s - 1074 + 1074) with s by lia. reflexivity. }
      unfold in_range, float_key. rewrite E. split; [lia|f_equal; lia].
Qed.

(** A value at most [tn / td] rounds to a float at most the rounding of
    [tn / td]. *)
Lemma binary64_le_mono n d tn td :
  0 <= n -> 0 < d -> 0 < td -> n * td <= tn * d ->
  float_le (binary64 false n d) (binary64 false tn td) = true.
Proof.
  intros Hn Hd Htd H.
  assert (Htn : 0 <= tn) by nia.
  destruct (binary64_key false n d Hn Hd) as [R1 K1].
  destruct (binary64_key false tn td Htn Htd) as [R2 K2].
  rewrite float_le_key, K1, K2 by assumption.
  pose proof (units_mono n d tn td Hn Hd Htd H).
  apply Z.leb_le. unfold signed. lia.
Qed.

Lemma binary64_neg_le n d tn td :
  0 <= n -> 0 < d -> 0 <= tn -> 0 < td ->
  float_le (binary64 true n d) (binary64 false tn td) = true.
Proof.
  intros Hn Hd Htn Htd.
  destruct (binary64_key true n d Hn Hd) as [R1 K1].
  destruct (binary64_key false tn td Htn Htd) as [R2 K2].
  rewrite float_le_key, K1, K2 by assumption.
  pose proof (units_nonneg n d Hn Hd). pose proof (units_nonneg tn td Htn Htd).
  assert (0 < 2 ^ 2098) by (apply Z.pow_pos_nonneg; lia).
  apply Z.leb_le. unfold signed. lia.
Qed.

(** A value at least [gn / gd] rounds above [tn / td] as soon as [gn / gd]
    does. *)
Lemma binary64_above n d gn gd tn td :
  0 < d -> 0 <= gn -> 0 < gd -> 0 <= tn -> 0 < td ->
  gn * d <= n * gd ->
  Z.min (units tn td) (2 ^ 2098) < Z.min (units gn gd) (2 ^ 2098) ->
  float_le (binary64 false n d) (binary64 false tn td) = false
  /\ float_gt (binary64 false n d) (binary64 false tn td) = true.
Proof.
  intros Hd Hgn Hgd Htn Htd H Hgap.
  assert (Hn : 0 <= n) by nia.
  destruct (binary64_key false n d Hn Hd) as [R1 K1].
  destruct (binary64_key false tn td Htn Htd) as [R2 K2].
  unfold float_gt.
  rewrite float_le_key, float_lt_key, K1, K2 by assumption.
  pose proof (units_mono gn gd n d Hgn Hgd Hd H).
  unfold signed. split; [apply Z.leb_gt|apply Z.ltb_lt]; lia.
Qed.

Lemma digits_from_acc s : forall acc,
  digits_from acc s = acc * 10 ^ Z.of_nat (String.length s) + digits_from 0 s.
Proof.
  induction s as [|c s IH]; intros acc.
  - simpl. lia.
  - cbn [digits_from String.length]. rewrite IH. rewrite (IH (10 * 0 + digit_value c)).
    rewrite Nat2Z.inj_succ, Z.pow_succ_r by lia. ring.
Qed.

Lemma digits_from_app s1 s2 : forall acc,
  digits_from acc (String.append s1 s2) = digits_from (digits_from acc s1) s2.
Proof.
  induction s1 as [|c s1 IH]; intros acc; simpl; [reflexivity|apply IH].
Qed.

Lemma digits_value_app s1 s2 :
  digits_value (String.append s1 s2)
  = digits_value s1 * 10 ^ Z.of_nat (String.length s2) + digits_value s2.
Proof.
  unfold digits_value. rewrite digits_from_app. apply digits_from_acc.
Qed.

Lemma is_digit_value c : is_digit c = true -> 0 <= digit_value c <= 9.
Proof. unfold is_digit, digit_value. lia. Qed.

Lemma digits_value_bound s :
  all_digits s = true ->
  0 <= digits_value s < 10 ^ Z.of_nat (String.length s).
Proof.
  unfold all_digits, digits_value.
  induction s as [|c s IH]; intros H.
  - simpl. lia.
  - cbn [string_forall] in H. apply andb_prop in H as [Hc Hs].
    specialize (IH Hs). apply is_digit_value in Hc.
    cbn [digits_from String.length]. rewrite digits_from_acc.
    rewrite Nat2Z.inj_succ, Z.pow_succ_r by lia.
    set (p := 10 ^ Z.of_nat (String.length s)) in *. nia.
Qed.

Lemma float_of_decimal_frac neg N k :
  0 <= k ->
  exists n d, float_of_decimal neg N (0 - k) = binary64 neg n d
              /\ 0 < d /\ n * 10 ^ k = N * d /\ (0 <= N -> 0 <= n).
Proof.
  intros Hk. unfold float_of_decimal.
  destruct (0 - k <? 0) eqn:E.
  - exists N, (10 ^ k). replace (- (0 - k)) with k by lia.
    split; [reflexivity|]. split; [apply Z.pow_pos_nonneg; lia|]. split; [lia|auto].
  - apply Z.ltb_ge in E. assert (k = 0) by lia. subst k.
    exists (N * 10 ^ 0), 1. split; [reflexivity|]. simpl. lia.
Qed.

Lemma string_forall_app p s1 s2 :
  string_forall p (String.append s1 s2)
  = string_forall p s1 && string_forall p s2.
Proof.
  induction s1 as [|c s1 IH]; simpl; [reflexivity|].
  rewrite IH. apply andb_assoc.
Qed.

Lemma string_forall_impl (p q : ascii -> bool) s :
  (forall c, p c = true -> q c = true) ->
  string_forall p s = true -> string_forall q s = true.
Proof.
  intros Hpq. induction s as [|c s IH]; simpl; [reflexivity|].
  intros H. apply andb_prop in H as [Hc Hs].
  rewrite (Hpq c Hc), (IH Hs). reflexivity.
Qed.

Lemma append_assoc (s1 s2 s3 : string) :
  String.append (String.append s1 s2) s3
  = String.append s1 (String.append s2 s3).
Proof. induction s1 as [|c s1 IH]; simpl; [reflexivity|now rewrite IH]. Qed.

Lemma append_empty_r (s : string) : String.append s EmptyString = s.
Proof. induction s as [|c s IH]; simpl; [reflexivity|now rewrite IH]. Qed.

Lemma digit_not (x : ascii) c :
  is_digit x = false -> is_digit c = true -> Ascii.eqb c x = false.
Proof.
  intros Hx Hc. destruct (Ascii.eqb_spec c x) as [E|E]; [|reflexivity].
  subst. congruence.
Qed.

Lemma digit_not_space c : is_digit c = true -> is_space c = false.
Proof. unfold is_digit, is_space. lia. Qed.

Lemma underscores_ok_plain s : forall prev,
  string_forall (fun c => negb (Ascii.eqb c "_")) s = true ->
  Ascii.eqb prev "_" = false ->
  underscores_ok prev s = true.
Proof.
  induction s as [|c s IH]; intros prev H Hp; simpl.
  - now rewrite Hp.
  - simpl in H. apply andb_prop in H as [Hc Hs].
    apply negb_true_iff in Hc. rewrite Hc, Hp. simpl. now apply IH.
Qed.

Lemma drop_underscores_plain s :
  string_forall (fun c => negb (Ascii.eqb c "_")) s = true ->
  drop_underscores s = s.
Proof.
  induction s as [|c s IH]; simpl; [reflexivity|]. intros H.
  apply andb_prop in H as [Hc Hs]. apply negb_true_iff in Hc.
  now rewrite Hc, IH.
Qed.

Lemma lstrip_plain s :
  string_forall (fun c => negb (is_space c)) s = true -> lstrip s = s.
Proof.
  destruct s as [|c s]; simpl; [reflexivity|]. intros H.
  apply andb_prop in H as [Hc _]. apply negb_true_iff in Hc. now rewrite Hc.
Qed.

Lemma rstrip_plain s :
  string_forall (fun c => negb (is_space c)) s = true -> rstrip s = s.
Proof.
  induction s as [|c s IH]; simpl; [reflexivity|]. intros H.
  apply andb_prop in H as [Hc Hs]. apply negb_true_iff in Hc.
  rewrite (IH Hs), Hc. now destruct s.
Qed.

Lemma span_digits_all ds :
  all_digits ds = true -> span_digits ds = (ds, EmptyString).
Proof.
  unfold all_digits. induction ds as [|c ds IH]; simpl; [reflexivity|].
  intros H. apply andb_prop in H as [Hc Hs]. now rewrite Hc, (IH Hs).
Qed.

Lemma span_digits_stop ds c rest :
  all_digits ds = true -> is_digit c = false ->
  span_digits (String.append ds (String c rest)) = (ds, String c rest).
Proof.
  unfold all_digits. intros H Hc.
  induction ds as [|x ds IH]; simpl.
  - now rewrite Hc.
  - simpl in H. apply andb_prop in H as [Hx Hs]. now rewrite Hx, (IH Hs).
Qed.

Lemma plain_char_facts c :
  plain_char c = true ->
  negb (Ascii.eqb c "_") = true /\ negb (is_space c) = true.
Proof.
  unfold plain_char. intros H.
  apply orb_prop in H as [H|H]; [apply orb_prop in H as [H|H]|].
  - rewrite (digit_not "_" c eq_refl H), (digit_not_space c H). auto.
  - apply Ascii.eqb_eq in H. subst. auto.
  - apply Ascii.eqb_eq in H. subst. auto.
Qed.

Lemma version_text_plain neg major minor :
  all_digits major = true -> all_digits minor = true ->
  string_forall plain_char (version_text neg major minor) = true.
Proof.
  intros H1 H2. unfold version_text.
  rewrite string_forall_app, string_forall_app. cbn [string_forall].
  rewrite (string_forall_impl is_digit plain_char major), (string_forall_impl is_digit plain_char minor);
    try assumption; try (intros c Hc; unfold plain_char; now rewrite Hc).
  now destruct neg.
Qed.

(** Side conditions on the characters of a version text. *)
Ltac from_plain Hp :=
  eapply string_forall_impl; [|exact Hp];
  let c := fresh "c" in let Hc := fresh "Hc" in
  intros c Hc; now apply plain_char_facts.

(** [float] of a version text is the rounding of the decimal it spells. *)
Lemma py_float_version neg major minor :
  all_digits major = true -> all_digits minor = true ->
  major <> EmptyString ->
  py_float (version_text neg major minor)
  = Some (float_of_decimal neg (digits_value (String.append major minor))
            (0 - Z.of_nat (String.length minor))).
Proof.
  intros H1 H2 Hne.
  pose proof (version_text_plain neg major minor H1 H2) as Hp.
  unfold py_float.
  rewrite underscores_ok_plain; [|from_plain Hp|reflexivity].
  rewrite drop_underscores_plain by from_plain Hp.
  rewrite lstrip_plain, rstrip_plain by from_plain Hp.
  assert (Hs : parse_sign (version_text neg major minor)
               = (neg, String.append major (String "." minor))).
  { unfold version_text. destruct neg; [reflexivity|].
    destruct major as [|c major]; [congruence|].
    unfold all_digits in H1. simpl in H1. apply andb_prop in H1 as [Hc _].
    simpl. now rewrite (digit_not "-" c eq_refl Hc), (digit_not "+" c eq_refl Hc). }
  rewrite Hs.
  rewrite (span_digits_stop major "." minor H1 eq_refl).
  rewrite Ascii.eqb_refl, (span_digits_all minor H2).
  destruct major as [|c major]; [congruence|]. reflexivity.
Qed.

Lemma split_on_sep s rest :
  string_forall (fun c => negb (Ascii.eqb c ".")) s = true ->
  split_on "." (String.append s (String "." rest)) = s :: split_on "." rest.
Proof.
  induction s as [|c s IH]; intros H.
  - reflexivity.
  - simpl in H. apply andb_prop in H as [Hc Hs]. apply negb_true_iff in Hc.
    cbn [String.append split_on]. rewrite Hc, (IH Hs). reflexivity.
Qed.

Lemma split_on_last s :
  string_forall (fun c => negb (Ascii.eqb c ".")) s = true ->
  split_on "." s = [s].
Proof.
  induction s as [|c s IH]; intros H.
  - reflexivity.
  - simpl in H. apply andb_prop in H as [Hc Hs]. apply negb_true_iff in Hc.
    cbn [split_on]. rewrite Hc, (IH Hs). reflexivity.
Qed.

(** Splitting the output of [uname -r] on dots gives the two parts back. *)
Lemma split_version neg major minor tail :
  all_digits major = true -> all_digits minor = true -> dotted_tail tail ->
  exists more,
    split_on "." (String.append (version_text neg major minor) tail)
    = String.append (if neg then "-" else EmptyString) major :: minor :: more.
Proof.
  intros H1 H2 Ht. unfold version_text.
  rewrite <- append_assoc, append_assoc.
  assert (D1 : string_forall (fun c => negb (Ascii.eqb c "."))
                 (String.append (if neg then "-" else EmptyString) major) = true).
  { rewrite string_forall_app.
    rewrite (string_forall_impl is_digit _ major); try assumption;
      [now destruct neg|intros c Hc; now rewrite (digit_not "." c eq_refl Hc)]. }
  assert (D2 : string_forall (fun c => negb (Ascii.eqb c ".")) minor = true).
  { apply (string_forall_impl is_digit); [|assumption].
    intros c Hc; now rewrite (digit_not "." c eq_refl Hc). }
  cbn [String.append]. rewrite (split_on_sep _ _ D1).
  destruct Ht as [->|[rest ->]].
  - rewrite append_empty_r, (split_on_last _ D2). now exists [].
  - rewrite (split_on_sep _ _ D2). now eexists.
Qed.

Lemma gap_3_10 :
  Z.min (units 310 100) (2 ^ 2098)
  < Z.min (units 3100000000000001 (10 ^ 15)) (2 ^ 2098).
Proof. vm_compute. reflexivity. Qed.

Lemma gap_3_18 :
  Z.min (units 318 100) (2 ^ 2098)
  < Z.min (units 3180000000000001 (10 ^ 15)) (2 ^ 2098).
Proof. vm_compute. reflexivity. Qed.

Lemma gap_4_above_3_10 :
  Z.min (units 310 100) (2 ^ 2098) < Z.min (units 4 1) (2 ^ 2098).
Proof. vm_compute. reflexivity. Qed.

Lemma gap_4_above_3_18 :
  Z.min (units 318 100) (2 ^ 2098) < Z.min (units 4 1) (2 ^ 2098).
Proof. vm_compute. reflexivity. Qed.

(** A decimal with at most 15 fractional digits that exceeds t/100 exceeds it
   by at least [10^-15]. *)
Lemma decimal_gap N k t :
  0 <= k <= 15 -> t * 10 ^ k < N * 100 ->
  (t * 10 ^ 13 + 1) * 10 ^ k <= N * 10 ^ 15.
Proof.
  intros Hk H.
  assert (E : 10 ^ 15 = 10 ^ (15 - k) * 10 ^ k)
    by (rewrite <- Z.pow_add_r by lia; f_equal; lia).
  assert (P1 : 0 < 10 ^ k) by (apply Z.pow_pos_nonneg; lia).
  assert (P2 : 0 < 10 ^ (15 - k)) by (apply Z.pow_pos_nonneg; lia).
  assert (E13 : 10 ^ 15 = 100 * 10 ^ 13) by reflexivity.
  rewrite E. rewrite E in E13.
  set (a := 10 ^ k) in *. set (b := 10 ^ (15 - k)) in *.
  set (c := 10 ^ 13) in *. clearbody a b c.
  assert (t * c < N * b).
  { apply (Z.mul_lt_mono_pos_r (100 * a)); [lia|].
    assert (t * a * (b * a) < N * 100 * (b * a)) by (apply Z.mul_lt_mono_pos_r; nia).
    nia. }
  assert ((t * c + 1) * a <= N * b * a) by (apply Z.mul_le_mono_nonneg_r; lia).
  lia.
Qed.

Lemma lit_3_10_eq : lit_3_10 = binary64 false 310 100.
Proof. reflexivity. Qed.
Lemma lit_3_18_eq : lit_3_18 = binary64 false 318 100.
Proof. reflexivity. Qed.

Lemma scale_le n d N P a b :
  0 < P -> 0 < d -> n * P = N * d -> N * b <= a * P -> n * b <= a * d.
Proof.
  intros HP Hd E H.
  apply (Z.mul_le_mono_pos_r _ _ P); [exact HP|].
  assert (N * b * d <= a * P * d) by (apply Z.mul_le_mono_nonneg_r; lia).
  replace (n * b * P) with (n * P * b) by ring. rewrite E. lia.
Qed.

Lemma scale_ge n d N P a b :
  0 < P -> 0 < d -> n * P = N * d -> a * P <= N * b -> a * d <= n * b.
Proof.
  intros HP Hd E H.
  apply (Z.mul_le_mono_pos_r _ _ P); [exact HP|].
  assert (a * P * d <= N * b * d) by (apply Z.mul_le_mono_nonneg_r; lia).
  replace (n * b * P) with (n * P * b) by ring. rewrite E. lia.
Qed.

(** Where a decimal of at most 15 fractional digits (or of integer part
    other than 3) falls with respect to [3.10] and [3.18], so does its
    rounding with respect to the two literals. *)
Lemma classify neg M m k :
  0 <= k -> 0 <= M -> 0 <= m < 10 ^ k -> k <= 15 \/ M <> 3 ->
  let N := M * 10 ^ k + m in
  let ver := float_of_decimal neg N (0 - k) in
  (signed neg N * 100 <= 310 * 10 ^ k -> float_le ver lit_3_10 = true)
  /\ (310 * 10 ^ k < signed neg N * 100 <= 318 * 10 ^ k ->
      float_le ver lit_3_10 = false /\ float_gt ver lit_3_10 = true
      /\ float_le ver lit_3_18 = true)
  /\ (318 * 10 ^ k < signed neg N * 100 ->
      float_le ver lit_3_10 = false /\ float_le ver lit_3_18 = false).
Proof.
  intros Hk HM Hm Hdom N ver.
  assert (HP : 0 < 10 ^ k) by (apply Z.pow_pos_nonneg; lia).
  assert (HN : 0 <= N) by (unfold N; nia).
  destruct (float_of_decimal_frac neg N k Hk) as (n & d & Ev & Hd & End & Hn).
  specialize (Hn HN). fold ver in Ev. rewrite Ev, lit_3_10_eq, lit_3_18_eq.
  destruct neg; unfold signed.
  - split; [intros _; apply binary64_neg_le; lia|]. split; intros; nia.
  - assert (Big : 4 * 10 ^ k <= N -> 4 * d <= n * 1).
    { intros. apply (scale_ge n d N (10 ^ k)); lia. }
    assert (Far : M <> 3 -> 310 * 10 ^ k < N * 100 -> 4 * 10 ^ k <= N).
    { intros HM3 H. assert (3 <= M) by (unfold N in H; nia). unfold N. nia. }
    split; [|split].
    + intros H. apply binary64_le_mono; try lia.
      apply (scale_le n d N (10 ^ k)); lia.
    + intros [H1 H2].
      assert (G : 3100000000000001 * d <= n * 10 ^ 15).
      { destruct Hdom as [Hk15|HM3].
        - apply (scale_ge n d N (10 ^ k)); try lia.
          apply (decimal_gap N k 310); lia.
        - specialize (Far HM3 H1). lia. }
      destruct (binary64_above n d 3100000000000001 (10 ^ 15) 310 100)
        as [A1 A2]; try lia; [exact gap_3_10|].
      split; [exact A1|]. split; [exact A2|].
      apply binary64_le_mono; try lia.
      apply (scale_le n d N (10 ^ k)); lia.
    + intros H.
      destruct Hdom as [Hk15|HM3].
      * assert (G : 3180000000000001 * d <= n * 10 ^ 15).
        { apply (scale_ge n d N (10 ^ k)); try lia.
          apply (decimal_gap N k 318); lia. }
        assert (G' : 3100000000000001 * d <= n * 10 ^ 15) by lia.
        destruct (binary64_above n d 3100000000000001 (10 ^ 15) 310 100)
          as [A1 _]; try lia; [exact gap_3_10|].
        destruct (binary64_above n d 3180000000000001 (10 ^ 15) 318 100)
          as [B1 _]; try lia; [exact gap_3_18|].
        now split.
      * assert (G : 4 * d <= n * 1) by (apply Big, Far; lia).
        destruct (binary64_above n d 4 1 310 100) as [A1 _];
          try lia; [exact gap_4_above_3_10|].
        destruct (binary64_above n d 4 1 318 100) as [B1 _];
          try lia; [exact gap_4_above_3_18|].
        now split.
Qed.

(** Version resolution on the number the text denotes, for minor parts of
    at most 15 digits. *)
Lemma kernel_version_numeric shell neg major minor tail :
  all_digits major = true -> all_digits minor = true ->
  major <> EmptyString -> dotted_tail tail ->
  shell "uname -r" = String.append (version_text neg major minor) tail ->
  (String.length minor <= 15)%nat \/ digits_value major <> 3 ->
  let v := version_value neg major minor in
  ((v <= 3.10)%Q -> resolves (kernel_version (Some shell)) profile_A)
  /\ ((3.10 < v)%Q /\ (v <= 3.18)%Q ->
      resolves (kernel_version (Some shell)) profile_B)
  /\ ((3.18 < v)%Q ->
      kernel_version (Some shell)
      = Raise unsupported).
Proof.
  intros H1 H2 Hne Ht Hs Hdom v.
  destruct (split_version neg major minor tail H1 H2 Ht) as [more Esplit].
  pose proof (py_float_version neg major minor H1 H2 Hne) as Efloat.
  unfold version_text in Efloat.
  unfold kernel_version. rewrite Hs, Esplit.
  rewrite append_assoc. cbn [String.append]. rewrite Efloat.
  pose proof (digits_value_bound major H1) as [HM _].
  pose proof (digits_value_bound minor H2) as Hm.
  assert (Hk : 0 <= Z.of_nat (String.length minor)) by lia.
  assert (Hdom' : Z.of_nat (String.length minor) <= 15 \/ digits_value major <> 3)
    by (destruct Hdom; [left; lia|now right]).
  pose proof (classify neg (digits_value major) (digits_value minor) _
                Hk HM Hm Hdom') as C.
  cbv zeta in C. rewrite <- digits_value_app in C.
  destruct C as (CA & CB & CC).
  set (k := Z.of_nat (String.length minor)) in *.
  set (N := digits_value (String.append major minor)) in *.
  assert (HP : 0 < 10 ^ k) by (apply Z.pow_pos_nonneg; lia).
  assert (Eden : Z.pos (Z.to_pos (10 ^ k)) = 10 ^ k) by (apply Z2Pos.id; exact HP).
  unfold lit_3_10, lit_3_18 in *.
  subst v. unfold version_value, Qle, Qlt. cbn [Qnum Qden]. fold k N.
  rewrite Eden.
  split; [|split].
  - intros H. rewrite CA by lia. now eexists.
  - intros [Ha Hb]. destruct CB as (B1 & B2 & B3); [lia|].
    rewrite B1, B2, B3. now eexists.
  - intros H. destruct CC as (C1 & C2); [lia|].
    rewrite C1, C2, andb_false_r. reflexivity.
Qed.

(** ** The session *)

(** *** Logs and reads *)

Lemma logged_logged l1 l2 s : logged l2 (logged l1 s) = logged (l1 ++ l2) s.
Proof. unfold logged. simpl. now rewrite app_assoc. Qed.

Lemma logged_nil s : logged [] s = s.
Proof. destruct s. unfold logged. simpl. now rewrite app_nil_r. Qed.

(** A read that is answered well at once returns the word in memory. *)
Lemma read_mem_quiet a s :
  glitches s = [] ->
  read_mem a 0 s
  = (Ret (PyInt (load_word a (mem s))), logged [ExamineWord a] s).
Proof.
  intros H. unfold read_mem, read_mem_depth, gdb_examine_word.
  rewrite H. reflexivity.
Qed.

(** A read answered on the second try returns [None]. *)
Lemma read_mem_retry_none a s g :
  glitches s = true :: false :: g ->
  read_mem a 0 s
  = (Ret PyNone,
     mkSession (mem s) (strings s) (matches s) g (remote_up s) (exited s)
               (sent s ++ [ExamineWord a] ++ [ExamineWord a])).
Proof.
  intros H. unfold read_mem, read_mem_depth, gdb_examine_word, bind, ret.
  rewrite H. cbn. now rewrite <- app_assoc.
Qed.

(** A read that fails twice exits GDB and raises. *)
Lemma read_mem_gives_up a s g :
  glitches s = true :: true :: g ->
  read_mem a 0 s
  = (Raise (PyException "GDB timeout reached. Quit"),
     mkSession (mem s) (strings s) (matches s) g (remote_up s) true
               (sent s ++ [ExamineWord a] ++ [ExamineWord a] ++ [GdbExit])).
Proof.
  intros H. unfold read_mem, read_mem_depth, gdb_examine_word, bind, ret, raise, stop.
  rewrite H. cbn. now rewrite <- !app_assoc.
Qed.

(** *** What a computation sends *)

Lemma only_sends_bind {A B} (P : gdb_cmd -> Prop) (m : M A) (k : A -> M B) :
  only_sends P m -> (forall a, only_sends P (k a)) -> only_sends P (bind m k).
Proof.
  intros Hm Hk s. unfold bind.
  destruct (Hm s) as (l1 & E1 & F1 & M1).
  destruct (m s) as [[a| e|] s1]; cbn [snd] in *;
    try (exists l1; now repeat split).
  destruct (Hk a s1) as (l2 & E2 & F2 & M2).
  exists (l1 ++ l2). rewrite E2, E1, app_assoc. split; [reflexivity|].
  split; [now apply Forall_app|congruence].
Qed.

Lemma only_sends_weaken {A} (P Q : gdb_cmd -> Prop) (m : M A) :
  (forall c, P c -> Q c) -> only_sends P m -> only_sends Q m.
Proof.
  intros HPQ Hm s. destruct (Hm s) as (l & E & F & Mm).
  exists l. repeat split; try assumption. eapply Forall_impl; eassumption.
Qed.

Lemma only_sends_pure {A} (P : gdb_cmd -> Prop) (o : outcome A) :
  only_sends P (lift o).
Proof. intros s. exists []. cbn. now rewrite app_nil_r. Qed.

Lemma only_sends_read_mem a rec :
  only_sends (fun c => c = ExamineWord a \/ c = GdbExit) (read_mem a rec).
Proof.
  intros s. unfold read_mem, read_mem_depth, gdb_examine_word, bind, ret, raise,
    stop, spin.
  destruct (glitches s) as [|[] [|[] g]]; destruct (rec =? 0); cbn;
    rewrite <- ?app_assoc; eexists; (split; [reflexivity|]);
    split; try reflexivity;
    repeat (apply Forall_cons; [auto|]); apply Forall_nil.
Qed.

(** *** The locator *)

Section Locator.

Variable o : options.

(** Candidates whose preceding words differ are read and passed over. *)
Lemma scan_skip cs : forall rest s,
  glitches s = [] ->
  (forall c, In c cs -> load_word (c - 8) (mem s) <> load_word (c - 4) (mem s)) ->
  scan_candidates o (cs ++ rest) s
  = scan_candidates o rest (logged (probes cs) s).
Proof.
  induction cs as [|c cs IH]; intros rest s Hq Hne.
  - simpl. now rewrite logged_nil.
  - cbn [app scan_candidates]. unfold bind at 1.
    rewrite (read_mem_quiet _ s Hq). unfold bind at 1.
    rewrite read_mem_quiet by exact Hq.
    cbn [py_eq mem logged].
    assert (E : (load_word (c - 8) (mem s) =? load_word (c - 4) (mem s)) = false)
      by (apply Z.eqb_neq, Hne; now left).
    rewrite E, logged_logged.
    rewrite IH; [|exact Hq|intros c' Hc'; apply Hne; now right].
    rewrite logged_logged. reflexivity.
Qed.

(** A candidate whose preceding words are equal ends the scan. *)
Lemma scan_hit c rest s :
  glitches s = [] ->
  load_word (c - 8) (mem s) = load_word (c - 4) (mem s) ->
  scan_candidates o (c :: rest) s
  = (Ret (c - offset_to_comm o), logged (probes [c]) s).
Proof.
  intros Hq He. cbn [scan_candidates]. unfold bind at 1.
  rewrite (read_mem_quiet _ s Hq). unfold bind at 1.
  rewrite read_mem_quiet by exact Hq.
  cbn [py_eq mem logged]. rewrite He, Z.eqb_refl, logged_logged. reflexivity.
Qed.

(** The locator on a target whose first valid search result is [A]. *)
Lemma locate_found process s pre A post :
  glitches s = [] ->
  matches s process = pre ++ A :: post ->
  (forall a, In a pre -> ~ accepted o s a) ->
  accepted o s A ->
  get_process_task_struct o process s
  = (Ret (A - offset_to_comm o),
     logged (Find process :: probes (filter (aligned o) pre ++ [A])) s).
Proof.
  intros Hq Hm Hpre [HA1 HA2].
  unfold get_process_task_struct, bind, find. rewrite Hm.
  rewrite filter_app. cbn [filter]. unfold aligned at 2.
  rewrite (proj2 (Z.eqb_eq _ _) HA1).
  change (log_cmd (Find process) s) with (logged [Find process] s).
  rewrite scan_skip; [|exact Hq|].
  - rewrite scan_hit; [|exact Hq|exact HA2].
    rewrite !logged_logged. unfold probes. rewrite flat_map_app.
    reflexivity.
  - intros c Hc. apply filter_In in Hc as [Hin Hal]. intros He.
    apply (Hpre c Hin). split; [|exact He].
    unfold aligned in Hal. now apply Z.eqb_eq.
Qed.

(** The locator on a target without a valid search result. *)
Lemma locate_missing process s :
  glitches s = [] ->
  (forall a, In a (matches s process) -> ~ accepted o s a) ->
  get_process_task_struct o process s
  = (Raise (PyException "Could not find process task struct"),
     logged (Find process :: probes (filter (aligned o) (matches s process))) s).
Proof.
  intros Hq Hno.
  unfold get_process_task_struct, bind, find.
  change (log_cmd (Find process) s) with (logged [Find process] s).
  rewrite <- (app_nil_r (filter _ _)) at 1.
  rewrite scan_skip; [|exact Hq|].
  - rewrite logged_logged. reflexivity.
  - intros c Hc. apply filter_In in Hc as [Hin Hal]. intros He.
    apply (Hno c Hin). split; [|exact He].
    unfold aligned in Hal. now apply Z.eqb_eq.
Qed.

(** The scan reads nothing but preceding words of its candidates. *)
Lemma only_sends_scan cs :
  only_sends (probe_of cs) (scan_candidates o cs).
Proof.
  induction cs as [|c cs IH].
  - apply (only_sends_pure _ (Raise _)).
  - cbn [scan_candidates].
    apply only_sends_bind.
    { eapply only_sends_weaken; [|apply only_sends_read_mem].
      intros x [->| ->]; [right; exists c; split; [now left|now left]|now left]. }
    intros p1. apply only_sends_bind.
    { eapply only_sends_weaken; [|apply only_sends_read_mem].
      intros x [->| ->]; [right; exists c; split; [now left|now right]|now left]. }
    intros p2. destruct (py_eq p1 p2).
    + apply (only_sends_pure _ (Ret _)).
    + eapply only_sends_weaken; [|exact IH].
      intros x [->|(a & Ha & Hx)]; [now left|right].
      exists a. split; [now right|exact Hx].
Qed.

Lemma locate_sends process s :
  exists l,
    sent (snd (get_process_task_struct o process s))
    = sent s ++ Find process :: l
    /\ Forall (probe_of (filter (aligned o) (matches s process))) l.
Proof.
  unfold get_process_task_struct, bind, find.
  destruct (only_sends_scan (filter (aligned o) (matches s process))
              (log_cmd (Find process) s)) as (l & E & F & _).
  exists l. split; [|exact F].
  rewrite E. cbn. now rewrite <- app_assoc.
Qed.

(** What a scan that returns has validated. *)
Lemma scan_result cs : forall s T s',
  glitches s = [] ->
  scan_candidates o cs s = (Ret T, s') ->
  exists c l, In c cs /\ T = c - offset_to_comm o
              /\ load_word (c - 8) (mem s) = load_word (c - 4) (mem s)
              /\ s' = logged l s.
Proof.
  induction cs as [|c cs IH]; intros s T s' Hq H.
  - discriminate H.
  - cbn [scan_candidates] in H. unfold bind at 1 in H.
    rewrite (read_mem_quiet _ s Hq) in H. unfold bind at 1 in H.
    rewrite read_mem_quiet in H by exact Hq.
    cbn [py_eq mem logged] in H. rewrite logged_logged in H.
    destruct (load_word (c - 8) (mem s) =? load_word (c - 4) (mem s)) eqn:E.
    + inversion H; subst. apply Z.eqb_eq in E.
      exists c, ([ExamineWord (c - 8)] ++ [ExamineWord (c - 4)]).
      split; [now left|]. split; [reflexivity|]. split; [exact E|reflexivity].
    + apply IH in H; [|exact Hq].
      destruct H as (c' & l & Hin & HT & Hw & Hs).
      exists c', (([ExamineWord (c - 8)] ++ [ExamineWord (c - 4)]) ++ l).
      split; [now right|]. split; [exact HT|]. split; [exact Hw|].
      now rewrite <- logged_logged.
Qed.

Lemma locate_result process s T s' :
  glitches s = [] ->
  get_process_task_struct o process s = (Ret T, s') ->
  exists A l, In A (matches s process) /\ accepted o s A
              /\ T = A - offset_to_comm o /\ s' = logged l s.
Proof.
  intros Hq H. unfold get_process_task_struct, bind, find in H.
  change (log_cmd ?c ?x) with (logged [c] x) in H.
  apply scan_result in H; [|exact Hq].
  destruct H as (c & l & Hin & HT & Hw & Hs).
  apply filter_In in Hin as [Hin Hal].
  exists c, ([Find process] ++ l). split; [exact Hin|]. split.
  - split; [now apply Z.eqb_eq|exact Hw].
  - split; [exact HT|]. now rewrite <- logged_logged.
Qed.

End Locator.

(** *** Memory *)

Lemma byte_of_range v i : 0 <= byte_of v i < 256.
Proof. unfold byte_of. apply Z.mod_pos_bound. lia. Qed.

Lemma word_bytes v :
  byte_of v 0 + 256 * byte_of v 1 + 65536 * byte_of v 2
  + 16777216 * byte_of v 3 = v mod 4294967296.
Proof.
  unfold byte_of.
  change (256 ^ 0) with 1. change (256 ^ 1) with 256.
  change (256 ^ 2) with (256 * 256). change (256 ^ 3) with (256 * 256 * 256).
  rewrite Z.div_1_r, <- !Z.div_div by lia.
  pose proof (Z.div_mod v 256 ltac:(lia)) as E0.
  pose proof (Z.mod_pos_bound v 256 ltac:(lia)) as B0.
  set (q0 := v / 256) in *.
  pose proof (Z.div_mod q0 256 ltac:(lia)) as E1.
  pose proof (Z.mod_pos_bound q0 256 ltac:(lia)) as B1.
  set (q1 := q0 / 256) in *.
  pose proof (Z.div_mod q1 256 ltac:(lia)) as E2.
  pose proof (Z.mod_pos_bound q1 256 ltac:(lia)) as B2.
  set (q2 := q1 / 256) in *.
  pose proof (Z.div_mod q2 256 ltac:(lia)) as E3.
  pose proof (Z.mod_pos_bound q2 256 ltac:(lia)) as B3.
  apply (Z.mod_unique _ _ (q2 / 256)); [left; lia|lia].
Qed.

Lemma store_inside a v m x :
  a <= x < a + 4 -> store_word a v m x = byte_of v (x - a).
Proof.
  intros H. unfold store_word.
  rewrite (proj2 (Z.leb_le _ _)), (proj2 (Z.ltb_lt _ _)) by lia. reflexivity.
Qed.

Lemma store_outside a v m x :
  x < a \/ a + 4 <= x -> store_word a v m x = m x.
Proof.
  intros H. unfold store_word.
  destruct (a <=? x) eqn:E1; [|reflexivity].
  destruct (x <? a + 4) eqn:E2; [|reflexivity].
  apply Z.leb_le in E1. apply Z.ltb_lt in E2. lia.
Qed.

Lemma load_store_same a v m :
  load_word a (store_word a v m) = v mod 4294967296.
Proof.
  unfold load_word. rewrite !store_inside by lia.
  replace (a - a) with 0 by lia. replace (a + 1 - a) with 1 by lia.
  replace (a + 2 - a) with 2 by lia. replace (a + 3 - a) with 3 by lia.
  rewrite !Z.mod_small by apply byte_of_range. apply word_bytes.
Qed.

Lemma load_store_apart a b v m :
  b + 4 <= a \/ a + 4 <= b ->
  load_word a (store_word b v m) = load_word a m.
Proof.
  intros H. unfold load_word. rewrite !store_outside by lia. reflexivity.
Qed.

Lemma sent_written ws : forall s,
  sent (written ws s) = sent s ++ map (fun w => SetWord (fst w) (snd w)) ws.
Proof.
  induction ws as [|[a v] ws IH]; intros s; simpl.
  - now rewrite app_nil_r.
  - unfold written in IH. rewrite IH. simpl. now rewrite <- app_assoc.
Qed.

Lemma written_keeps ws : forall s,
  glitches (written ws s) = glitches s /\ exited (written ws s) = exited s
  /\ strings (written ws s) = strings s /\ matches (written ws s) = matches s
  /\ remote_up (written ws s) = remote_up s.
Proof.
  induction ws as [|[a v] ws IH]; intros s; [simpl; auto|].
  change (written ((a, v) :: ws) s) with (written ws (snd (write_mem a v s))).
  destruct (IH (snd (write_mem a v s))) as (A & B & C & D & E).
  rewrite A, B, C, D, E. simpl. auto.
Qed.

(** After uniform writes a byte is either the written byte or untouched. *)
Lemma mem_written_cases b ws : forall s x,
  uniform b ws ->
  (mem (written ws s) x = b /\ covered ws x)
  \/ (mem (written ws s) x = mem s x /\ ~ covered ws x).
Proof.
  induction ws as [|[a v] ws IH]; intros s x Hu.
  - right. split; [reflexivity|]. intros (a & v & Hin & _). destruct Hin.
  - assert (Hu' : uniform b ws) by (intros a' v' i Hin Hi; apply (Hu a' v' i); [now right|exact Hi]).
    change (written ((a, v) :: ws) s) with (written ws (snd (write_mem a v s))).
    destruct (IH (snd (write_mem a v s)) x Hu') as [[E C]|[E NC]].
    + left. split; [exact E|]. destruct C as (a' & v' & Hin & Hr).
      exists a', v'. split; [now right|exact Hr].
    + rewrite E. cbn [write_mem snd mem log_cmd].
      destruct (Z_le_gt_dec a x) as [L|G];
        [destruct (Z_lt_le_dec x (a + 4)) as [L2|G2]|].
      * left. rewrite store_inside by lia. split.
        -- apply (Hu a v); [now left|lia].
        -- exists a, v. split; [now left|lia].
      * right. rewrite store_outside by lia. split; [reflexivity|].
        intros (a' & v' & [Heq|Hin] & Hr); [inversion Heq; subst; lia|].
        apply NC. now exists a', v'.
      * right. rewrite store_outside by lia. split; [reflexivity|].
        intros (a' & v' & [Heq|Hin] & Hr); [inversion Heq; subst; lia|].
        apply NC. now exists a', v'.
Qed.

Lemma mem_written_outside ws s x :
  ~ covered ws x -> mem (written ws s) x = mem s x.
Proof.
  revert s. induction ws as [|[a v] ws IH]; intros s NC; [reflexivity|].
  change (written ((a, v) :: ws) s) with (written ws (snd (write_mem a v s))).
  rewrite IH.
  - cbn [write_mem snd mem log_cmd]. apply store_outside.
    destruct (Z_le_gt_dec a x) as [L|G]; [|lia].
    destruct (Z_lt_le_dec x (a + 4)) as [L2|G2]; [|lia].
    exfalso. apply NC. exists a, v. split; [now left|lia].
  - intros (a' & v' & Hin & Hr). apply NC. exists a', v'. split; [now right|exact Hr].
Qed.

Lemma mem_written_inside b ws s x :
  uniform b ws -> covered ws x -> mem (written ws s) x = b.
Proof.
  intros Hu Hc. destruct (mem_written_cases b ws s x Hu) as [[E _]|[_ N]];
    [exact E|contradiction].
Qed.

(** Doing uniform writes twice changes nothing more. *)
Lemma written_idempotent b ws s x :
  uniform b ws ->
  mem (written ws (written ws s)) x = mem (written ws s) x.
Proof.
  intros Hu.
  destruct (mem_written_cases b ws (written ws s) x Hu) as [[E C]|[E _]].
  - rewrite E. symmetry. now apply mem_written_inside.
  - exact E.
Qed.

Lemma load_written b ws s a v :
  uniform b ws -> In (a, v) ws ->
  load_word a (mem (written ws s))
  = b mod 256 + 256 * (b mod 256) + 65536 * (b mod 256) + 16777216 * (b mod 256).
Proof.
  intros Hu Hin.
  assert (B : forall i, 0 <= i < 4 -> mem (written ws s) (a + i) = b).
  { intros i Hi. apply mem_written_inside; [exact Hu|].
    exists a, v. split; [exact Hin|lia]. }
  unfold load_word. rewrite (B 1), (B 2), (B 3) by lia.
  pose proof (B 0 ltac:(lia)) as B0. rewrite Z.add_0_r in B0. now rewrite B0.
Qed.

Lemma written_app ws1 ws2 s :
  written (ws1 ++ ws2) s = written ws2 (written ws1 s).
Proof. unfold written. apply fold_left_app. Qed.

Lemma uniform_words c v b ofs :
  (forall i, 0 <= i < 4 -> byte_of v i = b) -> uniform b (words_at c v ofs).
Proof.
  intros H a w i Hin Hi. unfold words_at in Hin.
  apply in_map_iff in Hin as (o & E & _). inversion E; subst. now apply H.
Qed.

Lemma bytes_of_ones i : 0 <= i < 4 -> byte_of 0xffffffff i = 255.
Proof.
  intros H. assert (i = 0 \/ i = 1 \/ i = 2 \/ i = 3) as [->|[->|[->| ->]]] by lia;
    reflexivity.
Qed.

Lemma bytes_of_zero i : 0 <= i < 4 -> byte_of 0 i = 0.
Proof. intros _. unfold byte_of. rewrite Zdiv_0_l. reflexivity. Qed.

Lemma covered_words c v ofs x :
  covered (words_at c v ofs) x <-> exists o, In o ofs /\ c + o <= x < c + o + 4.
Proof.
  unfold covered, words_at. split.
  - intros (a & w & Hin & Hr). apply in_map_iff in Hin as (o & E & Ho).
    inversion E; subst. now exists o.
  - intros (o & Ho & Hr). exists (c + o), v. split; [|exact Hr].
    apply in_map_iff. now exists o.
Qed.

(** A loop of writes at fixed offsets from an [int] address. *)
Lemma for_each_writes c v ofs : forall s,
  for_each ofs (fun o => a <- lift (py_add (PyInt c) o) ;; write_mem a v) s
  = (Ret tt, written (words_at c v ofs) s).
Proof.
  induction ofs as [|o ofs IH]; intros s; [reflexivity|].
  cbn [for_each]. unfold bind at 1.
  change ((a <- lift (py_add (PyInt c) o) ;; write_mem a v) s)
    with (write_mem (c + o) v s).
  unfold write_mem at 1. rewrite IH. reflexivity.
Qed.

Lemma set_full_capabilities_eq c s :
  set_full_capabilities (PyInt c) s
  = (Ret tt, written (words_at c 0xffffffff cap_offsets) s).
Proof. unfold set_full_capabilities. apply for_each_writes. Qed.

Lemma set_root_ids_eq c eff s :
  set_root_ids (PyInt c) eff s
  = (Ret tt,
     written (words_at c 0 (id_offsets ++ if eff then eid_offsets else [])) s).
Proof.
  unfold set_root_ids. unfold bind at 1. rewrite for_each_writes.
  unfold words_at. rewrite map_app, written_app.
  destruct eff; reflexivity.
Qed.

(** *** The ancestry walk *)

Section Walk.

Variable o : options.

(** One turn of the loop over a transport that answers well. *)
Lemma walk_step fuel cur s :
  glitches s = [] ->
  get_adbd_cred_struct (S fuel) o cur s
  = if named_adbd o s (parent_of o s cur)
    then (Ret (PyInt (load_word (parent_of o s cur + offset_to_comm o - 4) (mem s))),
          logged [ExamineWord (cur + offset_to_comm o - offset_to_parent o);
                  ExamineString (parent_of o s cur + offset_to_comm o);
                  ExamineWord (parent_of o s cur + offset_to_comm o - 4)] s)
    else get_adbd_cred_struct fuel o (parent_of o s cur)
           (logged [ExamineWord (cur + offset_to_comm o - offset_to_parent o);
                    ExamineString (parent_of o s cur + offset_to_comm o)] s).
Proof.
  intros Hq. cbn [get_adbd_cred_struct]. unfold bind at 1.
  rewrite (read_mem_quiet _ s Hq). fold (parent_of o s cur).
  unfold bind at 1. unfold read_str at 1.
  change (log_cmd ?c ?x) with (logged [c] x). rewrite logged_logged.
  cbn [strings logged app]. fold (named_adbd o s (parent_of o s cur)).
  destruct (named_adbd o s (parent_of o s cur)); [|reflexivity].
  rewrite read_mem_quiet by exact Hq. rewrite logged_logged. reflexivity.
Qed.

Lemma ancestor_logged s l n : forall x,
  ancestor o (logged l s) n x = ancestor o s n x.
Proof. induction n as [|n IH]; intros x; [reflexivity|]. cbn [ancestor]. apply IH. Qed.

Lemma named_adbd_logged s l t : named_adbd o (logged l s) t = named_adbd o s t.
Proof. reflexivity. Qed.

(** On a chain that never meets the name the loop outlasts any fuel. *)
Lemma walk_spins fuel : forall cur s,
  glitches s = [] ->
  (forall n, named_adbd o s (ancestor o s (S n) cur) = false) ->
  fst (get_adbd_cred_struct fuel o cur s) = Spin.
Proof.
  induction fuel as [|fuel IH]; intros cur s Hq Hno; [reflexivity|].
  rewrite walk_step by exact Hq.
  pose proof (Hno O) as H0. cbn [ancestor] in H0. rewrite H0.
  apply IH; [exact Hq|]. intros n.
  rewrite named_adbd_logged, ancestor_logged. exact (Hno (S n)).
Qed.

(** The loop returns at the first ancestor with the name, however far. *)
Lemma walk_finds k : forall fuel cur s,
  glitches s = [] ->
  (forall n, (n < k)%nat -> named_adbd o s (ancestor o s (S n) cur) = false) ->
  named_adbd o s (ancestor o s (S k) cur) = true ->
  (k < fuel)%nat ->
  fst (get_adbd_cred_struct fuel o cur s)
  = Ret (PyInt (load_word (ancestor o s (S k) cur + offset_to_comm o - 4) (mem s))).
Proof.
  induction k as [|k IH]; intros fuel cur s Hq Hno Hyes Hf;
    (destruct fuel as [|fuel]; [lia|]); rewrite walk_step by exact Hq.
  - cbn [ancestor] in Hyes. rewrite Hyes. reflexivity.
  - pose proof (Hno O ltac:(lia)) as H0. cbn [ancestor] in H0. rewrite H0.
    rewrite (IH fuel (parent_of o s cur)
               (logged [ExamineWord (cur + offset_to_comm o - offset_to_parent o);
                        ExamineString (parent_of o s cur + offset_to_comm o)] s));
      [now rewrite ancestor_logged|exact Hq|
       |rewrite named_adbd_logged, ancestor_logged; exact Hyes|lia].
    intros n Hn. rewrite named_adbd_logged, ancestor_logged.
    exact (Hno (S n) ltac:(lia)).
Qed.

Lemma walk_result fuel : forall cur s,
  glitches s = [] ->
  exists l, snd (get_adbd_cred_struct fuel o cur s) = logged l s.
Proof.
  induction fuel as [|fuel IH]; intros cur s Hq.
  - exists []. now rewrite logged_nil.
  - rewrite walk_step by exact Hq.
    destruct (named_adbd o s (parent_of o s cur)).
    + eexists. reflexivity.
    + destruct (IH (parent_of o s cur)
                  (logged [ExamineWord (cur + offset_to_comm o - offset_to_parent o);
                           ExamineString (parent_of o s cur + offset_to_comm o)] s) Hq)
        as [l E].
      rewrite E, logged_logged. eexists. reflexivity.
Qed.

Lemma ancestor_add s a : forall b x,
  ancestor o s (a + b) x = ancestor o s a (ancestor o s b x).
Proof.
  induction a as [|a IH]; intros b x; [reflexivity|].
  replace (S a + b)%nat with (a + S b)%nat by lia. rewrite IH.
  cbn [ancestor]. clear IH. revert x.
  induction b as [|b IHb]; intros x; [reflexivity|].
  cbn [ancestor]. apply IHb.
Qed.

(** A cycle without the name is a chain that never meets it. *)
Lemma cycle_never_adbd s start p :
  cyclic_without_adbd o s start p = true ->
  forall n, named_adbd o s (ancestor o s (S n) start) = false.
Proof.
  unfold cyclic_without_adbd. intros H. apply andb_prop in H as [Hc Hall].
  apply Z.eqb_eq in Hc. rewrite forallb_forall in Hall.
  intros n. induction n as [n IH] using lt_wf_ind.
  destruct (Nat.le_gt_cases n p) as [L|G].
  - apply negb_true_iff. apply Hall. apply in_seq. lia.
  - replace (S n) with (S (n - S p) + S p)%nat by lia.
    rewrite ancestor_add, Hc. apply IH. lia.
Qed.

End Walk.

(** *** Modes *)

Lemma init_up s :
  remote_up s = true -> init s = (Ret tt, logged [TargetRemote] s).
Proof. intros H. unfold init. cbn [log_cmd remote_up]. now rewrite H. Qed.

Lemma disable_selinux_eq o f0 f1 f2 s :
  offset_selinux o = [f0; f1; f2] ->
  disable_selinux o s = (Ret tt, written [(f0, 0); (f1, 0); (f2, 0)] s).
Proof. intros H. unfold disable_selinux. rewrite H. reflexivity. Qed.

Lemma stop_eq s :
  stop s = (Ret tt,
            mkSession (mem s) (strings s) (matches s) (glitches s)
                      (remote_up s) true (sent s ++ [GdbExit])).
Proof. reflexivity. Qed.

(** What daemon mode sends once the stager is located and the walk has
    returned the credential of adbd. *)
Lemma adbd_mode_trace fuel o dev s magic s1 adbd s2 f0 f1 f2 :
  check_process_is_running "STAGER" (ps_cmd o) dev = Ret tt ->
  remote_up s = true -> glitches s = [] ->
  offset_selinux o = [f0; f1; f2] ->
  get_process_task_struct o "STAGER" (logged [TargetRemote] s) = (Ret magic, s1) ->
  get_adbd_cred_struct fuel o magic s1 = (Ret (PyInt adbd), s2) ->
  let s3 := written (daemon_patch o adbd) s2 in
  let mc := load_word (magic + offset_to_comm o - 8) (mem s3) in
  exists s',
    adbd_mode fuel o dev s = (Ret tt, s')
    /\ sent s' = sent s2 ++ commands (daemon_patch o adbd)
                 ++ [ExamineWord (magic + offset_to_comm o - 8)]
                 ++ commands (own_patch mc) ++ [GdbExit].
Proof.
  intros Hps Hup Hq Hsel Hloc Hwalk s3 mc.
  assert (Hq1 : glitches s1 = []).
  { destruct (locate_result o "STAGER" (logged [TargetRemote] s) magic s1 Hq Hloc)
      as (A & l & _ & _ & _ & ->).
    exact Hq. }
  assert (Hq2 : glitches s2 = []).
  { destruct (walk_result o fuel magic s1 Hq1) as [l E].
    rewrite Hwalk in E. cbn [snd] in E. now rewrite E. }
  assert (Hq3 : glitches s3 = []).
  { unfold s3. destruct (written_keeps (daemon_patch o adbd) s2) as (-> & _). exact Hq2. }
  unfold adbd_mode.
  unfold bind at 1. unfold lift. rewrite Hps.
  unfold bind at 1. rewrite (init_up s Hup).
  unfold bind at 1. rewrite Hloc.
  unfold bind at 1. rewrite Hwalk.
  unfold bind at 1. rewrite set_full_capabilities_eq.
  unfold bind at 1. rewrite set_root_ids_eq.
  unfold bind at 1. rewrite (disable_selinux_eq o f0 f1 f2 _ Hsel).
  rewrite <- !written_app.
  replace (words_at adbd 4294967295 cap_offsets ++
           words_at adbd 0 (id_offsets ++ (if negb (stealth o) then eid_offsets else [])) ++
           [(f0, 0); (f1, 0); (f2, 0)]) with (daemon_patch o adbd)
    by (unfold daemon_patch; now rewrite Hsel).
  fold s3.
  unfold bind at 1. rewrite (read_mem_quiet _ s3 Hq3). fold mc.
  unfold bind at 1. rewrite set_root_ids_eq.
  unfold bind at 1. rewrite set_full_capabilities_eq.
  rewrite <- written_app. fold (own_patch mc).
  rewrite stop_eq. eexists. split; [reflexivity|].
  cbn [sent]. rewrite sent_written. cbn [sent logged].
  unfold s3. rewrite sent_written. unfold commands.
  now rewrite <- !app_assoc.
Qed.

(** With three addresses or more [disable_selinux] writes the first three. *)
Lemma disable_selinux_three o f0 f1 f2 more s :
  offset_selinux o = f0 :: f1 :: f2 :: more ->
  disable_selinux o s = (Ret tt, written [(f0, 0); (f1, 0); (f2, 0)] s).
Proof. intros H. unfold disable_selinux. rewrite H. reflexivity. Qed.

(** The projections of a run that ends on a closed session. *)
Lemma closed_run {A} (r : outcome A * session) a w :
  r = (a, closed w) ->
  fst r = a /\ exited (snd r) = true /\ sent (snd r) = sent w ++ [GdbExit]
  /\ mem (snd r) = mem w.
Proof. intros ->. repeat split. Qed.

(** What single mode does once the process is located. *)
Lemma single_mode_run o dev s magic s1 f0 f1 f2 more :
  check_process_is_running (magic_name o) (ps_cmd o) dev = Ret tt ->
  remote_up s = true -> glitches s = [] ->
  offset_selinux o = f0 :: f1 :: f2 :: more ->
  get_process_task_struct o (magic_name o) (logged [TargetRemote] s)
  = (Ret magic, s1) ->
  let cred := load_word (magic + offset_to_comm o - 8) (mem s) in
  mem s1 = mem s
  /\ single_mode o dev s
     = (Ret tt,
        closed (written (own_patch cred ++ [(f0, 0); (f1, 0); (f2, 0)])
                        (logged [ExamineWord (magic + offset_to_comm o - 8)]
                                s1))).
Proof.
  intros Hps Hup Hq Hsel Hloc cred.
  destruct (locate_result o (magic_name o) (logged [TargetRemote] s) magic s1
              Hq Hloc) as (A & l & _ & _ & _ & E1).
  assert (Hq1 : glitches s1 = []) by (rewrite E1; exact Hq).
  assert (Hm1 : mem s1 = mem s) by (rewrite E1; reflexivity).
  split; [exact Hm1|].
  unfold single_mode.
  unfold bind at 1. unfold lift. rewrite Hps.
  unfold bind at 1. rewrite (init_up s Hup).
  unfold bind at 1. rewrite Hloc.
  unfold bind at 1. rewrite (read_mem_quiet _ s1 Hq1). rewrite Hm1. fold cred.
  unfold bind at 1. rewrite set_root_ids_eq.
  unfold bind at 1. rewrite set_full_capabilities_eq.
  unfold bind at 1. rewrite (disable_selinux_three o f0 f1 f2 more _ Hsel).
  rewrite <- !written_app. rewrite stop_eq. unfold own_patch, closed.
  now rewrite <- !app_assoc.
Qed.

(** ** Version resolution *)

(** C1, as stated, fails: a version below zero is not refused.  The device
    reports [-1.0]; the number is negative, it is below [3.10], and
    [kernel_version] returns the profile of the first bracket. *)
Lemma kernel_version_negative_resolves :
  (version_value true "1" "0" < 0)%Q
  /\ kernel_version (Some (device_of "-1.0" EmptyString))
     = Ret (Finite true 4503599627370496 (-52), 0x288, 0xe0,
            [0xC0A77548; 0xC0A7754C; 0xC0A77550], "ps").
Proof. split; [reflexivity|vm_compute; reflexivity]. Qed.

(** C1, amended.  For a two-part version [major.minor], signed or not, whose
    minor part is written with two digits (or whose major part is not 3),
    read as the number [v] it denotes: [v <= 3.10] (every negative [v]
    included) resolves to the profile with [offset_to_comm = 0x288],
    [offset_to_parent = 0xE0], flags [0xC0A77548, 0xC0A7754C, 0xC0A77550] and
    command [ps]; [3.10 < v <= 3.18] resolves to the other profile, with
    [0x444], [0xE0], [0xC0C4F288, 0xC0C4F28C, 0xC0C4F280] and [ps -A];
    [v > 3.18] raises [NotImplementedError]. *)
Theorem kernel_version_brackets shell neg major minor tail :
  all_digits major = true -> all_digits minor = true ->
  major <> EmptyString -> dotted_tail tail ->
  shell "uname -r" = String.append (version_text neg major minor) tail ->
  String.length minor = 2%nat \/ digits_value major <> 3 ->
  let v := version_value neg major minor in
  ((v <= 3.10)%Q -> resolves (kernel_version (Some shell)) profile_A)
  /\ ((3.10 < v)%Q /\ (v <= 3.18)%Q ->
      resolves (kernel_version (Some shell)) profile_B)
  /\ ((3.18 < v)%Q -> kernel_version (Some shell) = Raise unsupported)
  /\ profile_A <> profile_B.
Proof.
  intros H1 H2 Hne Ht Hs Hdom v.
  assert (Hdom' : (String.length minor <= 15)%nat \/ digits_value major <> 3)
    by (destruct Hdom as [E|N]; [left; lia|now right]).
  destruct (kernel_version_numeric shell neg major minor tail
              H1 H2 Hne Ht Hs Hdom') as (A & B & C).
  repeat split; try assumption. discriminate.
Qed.

Lemma kernel_version_brackets_witness :
  resolves (kernel_version (Some (device_of "3.10.0+" EmptyString))) profile_A
  /\ resolves (kernel_version (Some (device_of "3.18.91+" EmptyString)))
              profile_B
  /\ kernel_version (Some (device_of "4.14.112" EmptyString))
     = Raise unsupported
  /\ resolves (kernel_version (Some (device_of "-1.00" EmptyString)))
              profile_A.
Proof.
  split; [|split; [|split]].
  - apply (kernel_version_brackets (device_of "3.10.0+" EmptyString)
             false "3" "10" ".0+");
      [reflexivity|reflexivity|discriminate|right; eexists; reflexivity
      |reflexivity|left; reflexivity|vm_compute; discriminate].
  - apply (kernel_version_brackets (device_of "3.18.91+" EmptyString)
             false "3" "18" ".91+");
      [reflexivity|reflexivity|discriminate|right; eexists; reflexivity
      |reflexivity|left; reflexivity|split; [reflexivity|vm_compute; discriminate]].
  - apply (kernel_version_brackets (device_of "4.14.112" EmptyString)
             false "4" "14" ".112");
      [reflexivity|reflexivity|discriminate|right; eexists; reflexivity
      |reflexivity|left; reflexivity|reflexivity].
  - apply (kernel_version_brackets (device_of "-1.00" EmptyString)
             true "1" "00" EmptyString);
      [reflexivity|reflexivity|discriminate|left; reflexivity
      |reflexivity|left; reflexivity|vm_compute; discriminate].
Defined.

(** ** The end-to-end scenario *)

(** C2, as stated, fails twice.  A device reporting [3.4] is refused:
    [float("3.4")] is above [3.18].  And with profile A, the name found at
    [0x10010010] with equal words before it is not accepted, as
    [0x10010010 mod 16 = 0] and [0x288 mod 16 = 8]: the locator raises
    instead of returning [0x1000FD88]. *)
Lemma scenario_of_section_8_fails :
  kernel_version (Some (device_of "3.4.0" "shell")) = Raise unsupported
  /\ matches shell_at_10 "shell" = [0x10010010]
  /\ load_word (0x10010010 - 8) (mem shell_at_10)
     = load_word (0x10010010 - 4) (mem shell_at_10)
  /\ fst (get_process_task_struct (options_A "shell" false) "shell"
            shell_at_10)
     = Raise (PyException "Could not find process task struct").
Proof. repeat split; vm_compute; reflexivity. Qed.

(** What the scenario meets at [3.4] holds from [3.2] to [3.9]: read as
    numbers they are above [3.18], and the versions are refused. *)
Lemma kernel_version_one_digit_minor shell c tail :
  is_digit c = true -> 2 <= digit_value c -> dotted_tail tail ->
  shell "uname -r"
  = String.append (version_text false "3" (String c EmptyString)) tail ->
  kernel_version (Some shell) = Raise unsupported.
Proof.
  intros Hc Hd Ht Hs.
  destruct (kernel_version_numeric shell false "3" (String c EmptyString) tail)
    as (_ & _ & Hhigh); try assumption; try reflexivity;
    [unfold all_digits; cbn [string_forall]; now rewrite Hc
    |discriminate|left; cbn [String.length]; lia|].
  apply Hhigh. unfold version_value, digits_value, Qlt.
  cbn [String.append digits_from String.length Qnum Qden signed].
  change (digit_value "3") with 3. change (Z.of_nat 1) with 1.
  change (Z.pos (Z.to_pos (10 ^ 1))) with 10.
  change (Qnum 3.18) with 318. change (Z.pos (Qden 3.18)) with 100. lia.
Qed.

(** C2, amended.  A device reporting [3.10] gets profile A
    ([offset_to_comm = 0x288]); under it, on a memory map where the name is
    found at one address [A] that passes both heuristics, the locator returns
    [A - 0x288]: [0x1000FD90] for [A = 0x10010018].  Where the name is found
    at [0x10010010] only, the locator raises, whatever the memory holds. *)
Theorem scenario_with_profile_A shell tail s A :
  dotted_tail tail ->
  shell "uname -r" = String.append (version_text false "3" "10") tail ->
  glitches s = [] ->
  matches s "shell" = [A] ->
  accepted (options_A "shell" false) s A ->
  exists ver,
    kernel_version (Some shell)
    = Ret (ver, 0x288, 0xe0, [0xC0A77548; 0xC0A7754C; 0xC0A77550], "ps")
    /\ fst (get_process_task_struct
              (mkOptions "shell" false ver 0x288 0xe0
                         [0xC0A77548; 0xC0A7754C; 0xC0A77550] "ps")
              "shell" s)
       = Ret (A - 0x288)
    /\ forall s',
        matches s' "shell" = [0x10010010] ->
        fst (get_process_task_struct
               (mkOptions "shell" false ver 0x288 0xe0
                          [0xC0A77548; 0xC0A7754C; 0xC0A77550] "ps")
               "shell" s')
        = Raise (PyException "Could not find process task struct").
Proof.
  intros Ht Hs Hq Hm Hacc.
  destruct (kernel_version_numeric shell false "3" "10" tail
              eq_refl eq_refl ltac:(discriminate) Ht Hs
              ltac:(left; simpl; lia)) as (HA & _ & _).
  destruct HA as [ver Ever]; [vm_compute; discriminate|].
  exists ver. split; [exact Ever|]. split.
  - rewrite (locate_found _ "shell" s [] A [] Hq Hm);
      [reflexivity|intros a []|exact Hacc].
  - intros s' Hm'. unfold get_process_task_struct, bind, find.
    rewrite Hm'. reflexivity.
Qed.

Lemma scenario_with_profile_A_witness :
  exists ver,
    kernel_version (Some (device_of "3.10.0+" "shell"))
    = Ret (ver, 0x288, 0xe0, [0xC0A77548; 0xC0A7754C; 0xC0A77550], "ps")
    /\ fst (get_process_task_struct
              (mkOptions "shell" false ver 0x288 0xe0
                         [0xC0A77548; 0xC0A7754C; 0xC0A77550] "ps")
              "shell" shell_at_18)
       = Ret 0x1000FD90.
Proof.
  destruct (scenario_with_profile_A (device_of "3.10.0+" "shell") ".0+"
              shell_at_18 0x10010018) as (ver & E1 & E2 & _);
    [right; eexists; reflexivity|reflexivity|reflexivity|reflexivity
    |split; reflexivity|].
  exists ver. split; [exact E1|exact E2].
Defined.

(** ** The single retry of a word read *)

(** C3, on the code.  The first reply to [x/xw 0xC1000280] is malformed, the
    second is well formed and carries the word [0xC2000000]; [read_mem] asks
    twice and returns [None]: the word read on the second try is dropped. *)
Theorem read_mem_retry_loses_word :
  load_word 0xC1000280 (mem (glitch_session false)) = 0xC2000000
  /\ fst (read_mem 0xC1000280 0 (glitch_session false)) = Ret PyNone
  /\ sent (snd (read_mem 0xC1000280 0 (glitch_session false)))
     = [ExamineWord 0xC1000280; ExamineWord 0xC1000280]
  /\ exited (snd (read_mem 0xC1000280 0 (glitch_session false))) = false.
Proof. repeat split; vm_compute; reflexivity. Qed.

(** The other half of C3 holds: two malformed replies in a row close the
    session before the error is raised. *)
Lemma read_mem_two_failures a s g :
  glitches s = true :: true :: g ->
  fst (read_mem a 0 s) = Raise (PyException "GDB timeout reached. Quit")
  /\ exited (snd (read_mem a 0 s)) = true.
Proof. intros H. rewrite (read_mem_gives_up a s g H). split; reflexivity. Qed.

(** So does a stub that cannot be reached: [__init__] exits GDB before it
    raises. *)
Lemma init_unreachable s :
  remote_up s = false ->
  fst (init s)
  = Raise (PyException "GDB server not reachable. Did you start it?")
  /\ exited (snd (init s)) = true.
Proof. intros H. unfold init. cbn [log_cmd remote_up]. rewrite H. split; reflexivity. Qed.

(** ** The ancestry walk *)

(** C4, as stated, fails: on the cycle STAGER -> sh -> STAGER, where no
    structure is named adbd, the walk has not ended after any number of
    steps; it neither returns nor raises. *)
Lemma walk_on_cycle_never_ends :
  cyclic_without_adbd (options_A "STAGER" false) cycle_session 0xC1000000 1
  = true
  /\ ~ exists fuel,
         fst (get_adbd_cred_struct fuel (options_A "STAGER" false)
                0xC1000000 cycle_session) <> Spin.
Proof.
  split; [vm_compute; reflexivity|].
  intros [fuel H]. apply H. apply walk_spins; [reflexivity|].
  apply (cycle_never_adbd _ _ _ 1%nat). vm_compute. reflexivity.
Qed.

(** C4, amended.  The walk has no depth bound and no failure of its own.
    Over a transport that answers well, it goes from parent to parent until
    one is named adbd, however far that is, and returns the word found four
    bytes before that name; on a parent chain that never meets the name, in
    particular on one that comes back to its start, it never ends. *)
Theorem walk_has_no_depth_bound o s start :
  glitches s = [] ->
  (forall k fuel,
      (forall n, (n < k)%nat ->
                 named_adbd o s (ancestor o s (S n) start) = false) ->
      named_adbd o s (ancestor o s (S k) start) = true ->
      (k < fuel)%nat ->
      fst (get_adbd_cred_struct fuel o start s)
      = Ret (PyInt (load_word (ancestor o s (S k) start + offset_to_comm o - 4)
                              (mem s))))
  /\ (forall fuel,
         (forall n, named_adbd o s (ancestor o s (S n) start) = false) ->
         fst (get_adbd_cred_struct fuel o start s) = Spin)
  /\ (forall p fuel,
         cyclic_without_adbd o s start p = true ->
         fst (get_adbd_cred_struct fuel o start s) = Spin).
Proof.
  intros Hq. split; [|split].
  - intros k fuel Hno Hyes Hf. now apply walk_finds.
  - intros fuel Hno. now apply walk_spins.
  - intros p fuel Hc. apply walk_spins; [exact Hq|].
    now apply (cycle_never_adbd o s start p).
Qed.

Lemma walk_has_no_depth_bound_witness :
  fst (get_adbd_cred_struct 5 (options_A "STAGER" false) 0xC1000000
         chain_session)
  = Ret (PyInt 0xC2001000)
  /\ fst (get_adbd_cred_struct 1000 (options_A "STAGER" false) 0xC1000000
            cycle_session)
     = Spin.
Proof.
  destruct (walk_has_no_depth_bound (options_A "STAGER" false) chain_session
              0xC1000000 eq_refl) as (Hfind & _ & _).
  destruct (walk_has_no_depth_bound (options_A "STAGER" false) cycle_session
              0xC1000000 eq_refl) as (_ & _ & Hspin).
  split.
  - rewrite (Hfind 1%nat 5%nat); [reflexivity| |reflexivity|lia].
    intros n Hn. assert (n = 0%nat) by lia. subst n. reflexivity.
  - apply (Hspin 1%nat). vm_compute. reflexivity.
Defined.

(** ** The structure locator *)

(** C5.  Over a transport that answers well, for any sequence of search
    results: the first result [A], in the order of the search, with
    [A mod 16 = offset_to_comm mod 16] and equal words at [A - 8] and
    [A - 4] gives the result [A - offset_to_comm]; when no result passes both
    tests the locator raises "Could not find process task struct". *)
Theorem locate_first_valid o process s :
  glitches s = [] ->
  (forall pre A post,
      matches s process = pre ++ A :: post ->
      (forall a, In a pre -> ~ accepted o s a) ->
      accepted o s A ->
      fst (get_process_task_struct o process s) = Ret (A - offset_to_comm o))
  /\ ((forall a, In a (matches s process) -> ~ accepted o s a) ->
      fst (get_process_task_struct o process s)
      = Raise (PyException "Could not find process task struct")).
Proof.
  intros Hq. split.
  - intros pre A post Hm Hpre HA.
    now rewrite (locate_found o process s pre A post Hq Hm Hpre HA).
  - intros Hno. now rewrite (locate_missing o process s Hq Hno).
Qed.

Lemma locate_first_valid_witness :
  fst (get_process_task_struct (options_A "STAGER" false) "STAGER"
         chain_session)
  = Ret (0xC1000288 - 0x288)
  /\ fst (get_process_task_struct (options_A "shell" false) "shell"
            shell_at_10)
     = Raise (PyException "Could not find process task struct").
Proof.
  split.
  - destruct (locate_first_valid (options_A "STAGER" false) "STAGER"
                chain_session eq_refl) as [Hfound _].
    apply (Hfound [0xC0F00014] 0xC1000288 []); [reflexivity| |split; reflexivity].
    intros a [<-|[]] [Hal _]. vm_compute in Hal. discriminate Hal.
  - destruct (locate_first_valid (options_A "shell" false) "shell"
                shell_at_10 eq_refl) as [_ Hnone].
    apply Hnone. intros a [<-|[]] [Hal _]. vm_compute in Hal. discriminate Hal.
Defined.

(** ** Session release *)

(** C6, on the code.  A run in single mode, on a 3.10 kernel where the
    process is listed and the stub answers, but the name is found nowhere in
    memory: the locator raises "Could not find process task struct" and the
    error leaves the script with the session still open; no exit was sent
    to GDB. *)
Theorem locate_failure_keeps_session_open :
  fst (main single_mode "shell" false (Some (device_of "3.10.0+" "shell"))
         absent_session)
  = Raise (PyException "Could not find process task struct")
  /\ exited (snd (main single_mode "shell" false
                    (Some (device_of "3.10.0+" "shell")) absent_session))
     = false
  /\ sent (snd (main single_mode "shell" false
                  (Some (device_of "3.10.0+" "shell")) absent_session))
     = [TargetRemote; Find "shell"].
Proof. repeat split; vm_compute; reflexivity. Qed.

(** The same on any target: a locator that finds nothing leaves the session
    as open as it was. *)
Lemma locate_failure_does_not_exit o process s :
  glitches s = [] ->
  (forall a, In a (matches s process) -> ~ accepted o s a) ->
  exited (snd (get_process_task_struct o process s)) = exited s
  /\ ~ In GdbExit (skipn (List.length (sent s))
                     (sent (snd (get_process_task_struct o process s)))).
Proof.
  intros Hq Hno. rewrite (locate_missing o process s Hq Hno).
  split; [reflexivity|]. cbn [snd logged sent].
  rewrite skipn_app, Nat.sub_diag, skipn_all. cbn [app skipn].
  intros [H|H]; [discriminate H|].
  unfold probes in H. apply in_flat_map in H as (c & _ & [H|[H|[]]]);
    discriminate H.
Qed.

(** ** The credential patcher *)

Lemma not_covered_outside c v ofs lo hi x :
  (forall o, In o ofs -> lo <= o /\ o + 4 <= hi) ->
  x < c + lo \/ c + hi <= x ->
  ~ covered (words_at c v ofs) x.
Proof.
  intros Hofs Hx Hc. apply covered_words in Hc as (o & Ho & Hr).
  destruct (Hofs o Ho). lia.
Qed.

(** C7.  For every credential address, [set_full_capabilities] returns
    after sending exactly six writes, of [0xFFFFFFFF] to the offsets [0x30],
    [0x34], [0x38], [0x3C], [0x40], [0x44]; the six words then read
    [0xFFFFFFFF] and no byte outside them has changed; run a second time, it
    leaves the memory (and the rest of the session but the log) as the first
    run left it. *)
Theorem set_full_capabilities_spec c s :
  let r := set_full_capabilities (PyInt c) s in
  let r2 := set_full_capabilities (PyInt c) (snd r) in
  fst r = Ret tt
  /\ sent (snd r)
     = sent s ++ map (fun ofs => SetWord (c + ofs) 0xffffffff)
                     [0x30; 0x34; 0x38; 0x3c; 0x40; 0x44]
  /\ (forall ofs, In ofs [0x30; 0x34; 0x38; 0x3c; 0x40; 0x44] ->
                  load_word (c + ofs) (mem (snd r)) = 0xffffffff)
  /\ (forall x, x < c + 0x30 \/ c + 0x48 <= x -> mem (snd r) x = mem s x)
  /\ fst r2 = Ret tt
  /\ (forall x, mem (snd r2) x = mem (snd r) x)
  /\ glitches (snd r2) = glitches (snd r)
  /\ exited (snd r2) = exited (snd r).
Proof.
  cbv zeta. rewrite !set_full_capabilities_eq. cbn [fst snd].
  assert (U : uniform 255 (words_at c 0xffffffff cap_offsets))
    by (apply uniform_words, bytes_of_ones).
  split; [reflexivity|]. split; [now rewrite sent_written|]. split.
  { intros ofs Hin.
    rewrite (load_written 255 _ s (c + ofs) 0xffffffff U); [reflexivity|].
    unfold words_at. apply in_map_iff. now exists ofs. }
  split.
  { intros x Hx. apply mem_written_outside.
    apply (not_covered_outside c _ cap_offsets 0x30 0x48); [|exact Hx].
    intros o Ho. unfold cap_offsets in Ho. cbn [In] in Ho. lia. }
  split; [reflexivity|]. split.
  { intros x. now apply (written_idempotent 255). }
  destruct (written_keeps (words_at c 0xffffffff cap_offsets)
              (written (words_at c 0xffffffff cap_offsets) s))
    as (G & E & _).
  now rewrite G, E.
Qed.

(** C8.  For every credential address: with [effective] false,
    [set_root_ids] sends exactly six writes, of [0] to the offsets [0x04],
    [0x08], [0x0C], [0x10], [0x1C], [0x20], after which those words read [0]
    and the words at [0x14] and [0x18] read what they read before; with
    [effective] true it sends two more, of [0] to [0x14] and [0x18], and
    these words read [0] as well.  In daemon mode with the stealth flag set,
    what is sent for adbd after the walk is the six capability writes and
    the six identity writes, the effective ones left out, followed by the
    three SELinux writes and the patch of the stager's own credential. *)
Theorem set_root_ids_spec :
  (forall c s,
      let r := set_root_ids (PyInt c) false s in
      fst r = Ret tt
      /\ sent (snd r)
         = sent s ++ map (fun ofs => SetWord (c + ofs) 0)
                         [0x04; 0x08; 0x0c; 0x10; 0x1c; 0x20]
      /\ (forall ofs, In ofs [0x04; 0x08; 0x0c; 0x10; 0x1c; 0x20] ->
                      load_word (c + ofs) (mem (snd r)) = 0)
      /\ load_word (c + 0x14) (mem (snd r)) = load_word (c + 0x14) (mem s)
      /\ load_word (c + 0x18) (mem (snd r)) = load_word (c + 0x18) (mem s))
  /\ (forall c s,
         let r := set_root_ids (PyInt c) true s in
         fst r = Ret tt
         /\ sent (snd r)
            = sent s ++ map (fun ofs => SetWord (c + ofs) 0)
                            [0x04; 0x08; 0x0c; 0x10; 0x1c; 0x20; 0x14; 0x18]
         /\ (forall ofs,
                In ofs [0x04; 0x08; 0x0c; 0x10; 0x1c; 0x20; 0x14; 0x18] ->
                load_word (c + ofs) (mem (snd r)) = 0))
  /\ (forall fuel o dev s magic adbd f0 f1 f2,
         stealth o = true ->
         check_process_is_running "STAGER" (ps_cmd o) dev = Ret tt ->
         remote_up s = true -> glitches s = [] ->
         offset_selinux o = [f0; f1; f2] ->
         let located :=
           get_process_task_struct o "STAGER" (logged [TargetRemote] s) in
         fst located = Ret magic ->
         let walked := get_adbd_cred_struct fuel o magic (snd located) in
         fst walked = Ret (PyInt adbd) ->
         exists mc,
           fst (adbd_mode fuel o dev s) = Ret tt
           /\ sent (snd (adbd_mode fuel o dev s))
              = sent (snd walked)
                ++ map (fun ofs => SetWord (adbd + ofs) 0xffffffff)
                       [0x30; 0x34; 0x38; 0x3c; 0x40; 0x44]
                ++ map (fun ofs => SetWord (adbd + ofs) 0)
                       [0x04; 0x08; 0x0c; 0x10; 0x1c; 0x20]
                ++ [SetWord f0 0; SetWord f1 0; SetWord f2 0]
                ++ [ExamineWord (magic + offset_to_comm o - 8)]
                ++ commands (own_patch mc) ++ [GdbExit]).
Proof.
  split; [|split].
  - intros c s. cbv zeta. rewrite set_root_ids_eq. cbn [fst snd].
    rewrite app_nil_r.
    assert (U : uniform 0 (words_at c 0 id_offsets))
      by (apply uniform_words, bytes_of_zero).
    split; [reflexivity|]. split; [now rewrite sent_written|]. split.
    { intros ofs Hin.
      rewrite (load_written 0 _ s (c + ofs) 0 U); [reflexivity|].
      unfold words_at. apply in_map_iff. now exists ofs. }
    assert (F : forall x, c + 0x14 <= x < c + 0x1c ->
                          mem (written (words_at c 0 id_offsets) s) x = mem s x).
    { intros x Hx. apply mem_written_outside. intros Hc.
      apply covered_words in Hc as (o & Ho & Hr).
      unfold id_offsets in Ho. cbn [In] in Ho. lia. }
    unfold load_word. rewrite !F by lia. split; reflexivity.
  - intros c s. cbv zeta. rewrite set_root_ids_eq. cbn [fst snd].
    assert (U : uniform 0 (words_at c 0 (id_offsets ++ eid_offsets)))
      by (apply uniform_words, bytes_of_zero).
    split; [reflexivity|]. split; [now rewrite sent_written|].
    intros ofs Hin.
    rewrite (load_written 0 _ s (c + ofs) 0 U); [reflexivity|].
    unfold words_at. apply in_map_iff. now exists ofs.
  - intros fuel o dev s magic adbd f0 f1 f2 Hst Hps Hup Hq Hsel located Hloc
           walked Hwalk.
    assert (Eloc : located = (Ret magic, snd located))
      by (destruct located; cbn [fst snd] in *; now subst).
    assert (Ewalk : walked = (Ret (PyInt adbd), snd walked))
      by (destruct walked; cbn [fst snd] in *; now subst).
    destruct (adbd_mode_trace fuel o dev s magic (snd located) adbd
                (snd walked) f0 f1 f2 Hps Hup Hq Hsel Eloc Ewalk)
      as (s' & Erun & Esent).
    eexists. rewrite Erun. cbn [fst snd]. split; [reflexivity|]. rewrite Esent.
    unfold daemon_patch. rewrite Hst, Hsel. cbn [negb]. rewrite app_nil_r.
    unfold commands. rewrite !map_app. unfold words_at. rewrite !map_map.
    cbn [fst snd map cap_offsets id_offsets]. rewrite <- !app_assoc.
    reflexivity.
Qed.

Lemma set_root_ids_spec_witness :
  exists mc,
    fst (adbd_mode 5 (options_A "STAGER" true)
           (Some (device_of "3.10.0+" "STAGER")) chain_session) = Ret tt
    /\ skipn 9 (sent (snd (adbd_mode 5 (options_A "STAGER" true)
                             (Some (device_of "3.10.0+" "STAGER"))
                             chain_session)))
       = map (fun ofs => SetWord (0xC2001000 + ofs) 0xffffffff)
             [0x30; 0x34; 0x38; 0x3c; 0x40; 0x44]
         ++ map (fun ofs => SetWord (0xC2001000 + ofs) 0)
                [0x04; 0x08; 0x0c; 0x10; 0x1c; 0x20]
         ++ [SetWord 0xC0A77548 0; SetWord 0xC0A7754C 0; SetWord 0xC0A77550 0]
         ++ [ExamineWord (0xC1000000 + 0x288 - 8)]
         ++ commands (own_patch mc) ++ [GdbExit].
Proof.
  destruct set_root_ids_spec as (_ & _ & Hmode).
  destruct (Hmode 5%nat (options_A "STAGER" true)
              (Some (device_of "3.10.0+" "STAGER")) chain_session
              0xC1000000 0xC2001000 0xC0A77548 0xC0A7754C 0xC0A77550)
    as (mc & Erun & Esent);
    [reflexivity|reflexivity|reflexivity|reflexivity|reflexivity
    |vm_compute; reflexivity|vm_compute; reflexivity|].
  exists mc. split; [exact Erun|]. rewrite Esent.
  match goal with
  | |- skipn 9 (?pre ++ ?rest) = _ =>
      replace pre with (firstn 9 pre) by (vm_compute; reflexivity)
  end.
  reflexivity.
Defined.

(** ** The alignment filter *)

(** C9, as stated, fails.  The name is found at [0xC0001014], which fails
    the alignment test, and at [0xC0001018], which passes it; the locator
    reads the word at [0xC0001010], the one four bytes before the first
    address, as the word eight bytes before the second. *)
Lemma misaligned_neighbour_is_read :
  In 0xC0001014 (matches twin_session "sh")
  /\ 0xC0001014 mod 16 <> offset_to_comm (options_A "sh" false) mod 16
  /\ In (ExamineWord (0xC0001014 - 4))
        (sent (snd (get_process_task_struct (options_A "sh" false) "sh"
                      twin_session))).
Proof.
  split; [left; reflexivity|]. split; [vm_compute; discriminate|].
  vm_compute. right. left. reflexivity.
Qed.

(** C9, amended.  Every read the locator issues is a read of the word eight
    or four bytes before a search result that passes the alignment test.  So
    for a result [addr] that fails it, the word at [addr - 8] is read only
    if [addr - 4] is a result that passes, and the word at [addr - 4] only if
    [addr + 4] is one; what those words hold plays no part. *)
Theorem locate_reads_only_aligned o process s :
  exists l,
    sent (snd (get_process_task_struct o process s))
    = sent s ++ Find process :: l
    /\ (forall x, In (ExamineWord x) l ->
                  exists c, In c (matches s process)
                            /\ c mod 16 = offset_to_comm o mod 16
                            /\ (x = c - 8 \/ x = c - 4))
    /\ (forall addr,
           addr mod 16 <> offset_to_comm o mod 16 ->
           (In (ExamineWord (addr - 8)) l ->
            In (addr - 4) (matches s process)
            /\ (addr - 4) mod 16 = offset_to_comm o mod 16)
           /\ (In (ExamineWord (addr - 4)) l ->
               In (addr + 4) (matches s process)
               /\ (addr + 4) mod 16 = offset_to_comm o mod 16)).
Proof.
  destruct (locate_sends o process s) as (l & E & F).
  exists l. split; [exact E|].
  assert (R : forall x, In (ExamineWord x) l ->
                        exists c, In c (matches s process)
                                  /\ c mod 16 = offset_to_comm o mod 16
                                  /\ (x = c - 8 \/ x = c - 4)).
  { intros x Hx. rewrite Forall_forall in F.
    destruct (F _ Hx) as [H|(c & Hc & H)]; [discriminate H|].
    apply filter_In in Hc as [Hin Hal]. unfold aligned in Hal.
    apply Z.eqb_eq in Hal. exists c. split; [exact Hin|]. split; [exact Hal|].
    destruct H as [H|H]; inversion H; auto. }
  split; [exact R|].
  intros addr Hmis. split; intros Hx; destruct (R _ Hx) as (c & Hin & Hal & [H|H]).
  - assert (c = addr) by lia. subst c. contradiction.
  - assert (c = addr - 4) by lia. subst c. now split.
  - assert (c = addr + 4) by lia. subst c. now split.
  - assert (c = addr) by lia. subst c. contradiction.
Qed.

Lemma locate_reads_only_aligned_witness :
  exists l,
    sent (snd (get_process_task_struct (options_A "STAGER" false) "STAGER"
                 chain_session))
    = Find "STAGER" :: l
    /\ ~ In (ExamineWord (0xC0F00014 - 8)) l
    /\ ~ In (ExamineWord (0xC0F00014 - 4)) l.
Proof.
  destruct (locate_reads_only_aligned (options_A "STAGER" false) "STAGER"
              chain_session) as (l & E & _ & Hmis).
  exists l. split; [exact E|].
  destruct (Hmis 0xC0F00014 ltac:(vm_compute; discriminate)) as [H8 H4].
  split; intros Hin.
  - destruct (H8 Hin) as [[H|[H|[]]] _]; vm_compute in H; discriminate H.
  - destruct (H4 Hin) as [[H|[H|[]]] _]; vm_compute in H; discriminate H.
Defined.

(** ** Two ways to the credential *)



(** * Further properties of the script *)

(** ** Version texts that are refused *)

Lemma drop_underscores_app s1 s2 :
  drop_underscores (String.append s1 s2)
  = String.append (drop_underscores s1) (drop_underscores s2).
Proof.
  induction s1 as [|c s1 IH]; simpl; [reflexivity|].
  destruct (Ascii.eqb c "_"); simpl; now rewrite IH.
Qed.

Lemma rstrip_cons a s :
  is_space a = false -> rstrip (String a s) = String a (rstrip s).
Proof. intros H. cbn [rstrip]. rewrite H. now destruct (rstrip s). Qed.

Lemma rstrip_app_plain p q :
  string_forall (fun c => negb (is_space c)) p = true ->
  rstrip (String.append p q) = String.append p (rstrip q).
Proof.
  induction p as [|a p IH]; intros H; [reflexivity|].
  cbn [string_forall] in H. apply andb_prop in H as [Ha Hp].
  apply negb_true_iff in Ha.
  cbn [String.append]. rewrite (rstrip_cons a _ Ha), (IH Hp). reflexivity.
Qed.

Lemma digits_plain s :
  all_digits s = true ->
  string_forall (fun c => negb (Ascii.eqb c "_")) s = true
  /\ string_forall (fun c => negb (is_space c)) s = true
  /\ string_forall no_dot s = true.
Proof.
  intros H. repeat split; apply (string_forall_impl is_digit); try exact H;
    intros c Hc.
  - now rewrite (digit_not "_" c eq_refl Hc).
  - now rewrite (digit_not_space c Hc).
  - unfold no_dot. now rewrite (digit_not "." c eq_refl Hc).
Qed.

Lemma lstrip_plain_first s :
  match s with String c _ => is_space c = false | EmptyString => True end ->
  lstrip s = s.
Proof. destruct s as [|c s]; intros H; [reflexivity|]. cbn [lstrip]. now rewrite H. Qed.

(** [float] refuses a number followed by anything but an exponent. *)
Lemma py_float_suffix major minor c rest :
  all_digits major = true -> all_digits minor = true ->
  major <> EmptyString ->
  is_digit c = false -> is_space c = false ->
  Ascii.eqb c "_" = false -> Ascii.eqb c "e" = false ->
  Ascii.eqb c "E" = false ->
  py_float (String.append major
              (String "." (String.append minor (String c rest))))
  = None.
Proof.
  intros H1 H2 Hne Hd Hs Hu He HE.
  destruct (digits_plain major H1) as (U1 & S1 & _).
  destruct (digits_plain minor H2) as (U2 & S2 & _).
  unfold py_float.
  destruct (underscores_ok _ _); [|reflexivity].
  rewrite drop_underscores_app. cbn [drop_underscores].
  change (Ascii.eqb "." "_") with false. cbv iota.
  rewrite drop_underscores_app. cbn [drop_underscores]. rewrite Hu.
  rewrite !drop_underscores_plain by assumption.
  set (r := drop_underscores rest).
  assert (Eassoc : String.append major (String "." (String.append minor (String c r)))
                   = String.append (String.append major (String "." minor))
                                   (String c r)).
  { rewrite append_assoc. cbn [String.append]. reflexivity. }
  assert (Hplain : string_forall (fun c => negb (is_space c))
                     (String.append major (String "." minor)) = true).
  { rewrite string_forall_app. cbn [string_forall]. now rewrite S1, S2. }
  assert (Estrip : rstrip (lstrip (String.append major
                     (String "." (String.append minor (String c r)))))
                   = String.append major
                       (String "." (String.append minor (String c (rstrip r))))).
  { rewrite lstrip_plain_first.
    - rewrite Eassoc, (rstrip_app_plain _ _ Hplain), (rstrip_cons c r Hs).
      rewrite append_assoc. reflexivity.
    - destruct major as [|d major']; [congruence|].
      unfold all_digits in H1. cbn [string_forall] in H1.
      apply andb_prop in H1 as [Hd1 _]. cbn [String.append].
      now rewrite (digit_not_space d Hd1). }
  rewrite Estrip.
  assert (Hsign : parse_sign (String.append major
                     (String "." (String.append minor (String c (rstrip r)))))
                  = (false, String.append major
                     (String "." (String.append minor (String c (rstrip r)))))).
  { destruct major as [|d major']; [congruence|].
    unfold all_digits in H1. cbn [string_forall] in H1.
    apply andb_prop in H1 as [Hd1 _]. cbn [String.append parse_sign].
    now rewrite (digit_not "-" d eq_refl Hd1), (digit_not "+" d eq_refl Hd1). }
  rewrite Hsign.
  rewrite (span_digits_stop major "." _ H1 eq_refl).
  rewrite Ascii.eqb_refl, (span_digits_stop minor c _ H2 Hd).
  cbn [parse_exponent]. rewrite He, HE. cbn [orb].
  now destruct (String.append major minor).
Qed.

(** X1.  Without a device, or when [uname -r] prints no dot, [kernel_version]
    raises before any number is read. *)
Theorem kernel_version_needs_two_fields :
  kernel_version None = Raise invalid_device
  /\ forall shell,
      string_forall no_dot (shell "uname -r") = true ->
      kernel_version (Some shell) = Raise IndexError.
Proof.
  split; [reflexivity|]. intros shell H.
  unfold kernel_version. now rewrite (split_on_last _ H).
Qed.

Lemma kernel_version_needs_two_fields_witness :
  kernel_version (Some (device_of "3" EmptyString)) = Raise IndexError
  /\ kernel_version (Some (device_of EmptyString EmptyString))
     = Raise IndexError.
Proof.
  destruct kernel_version_needs_two_fields as [_ H].
  split; apply H; reflexivity.
Defined.

(** X2.  On ASCII text, a second field that goes on after its digits with
    anything but a digit, a dot, an underscore, an exponent letter or white
    space is no number: [kernel_version] raises [ValueError]. *)
Theorem kernel_version_suffix shell major minor c rest tail :
  all_digits major = true -> all_digits minor = true ->
  major <> EmptyString ->
  is_digit c = false -> is_space c = false -> no_dot c = true ->
  Ascii.eqb c "_" = false -> Ascii.eqb c "e" = false ->
  Ascii.eqb c "E" = false ->
  string_forall is_ascii (String c rest) = true ->
  string_forall no_dot rest = true -> dotted_tail tail ->
  shell "uname -r"
  = String.append major
      (String "." (String.append (String.append minor (String c rest)) tail)) ->
  kernel_version (Some shell) = Raise ValueError.
Proof.
  intros H1 H2 Hne Hd Hs Hdot Hu He HE _ Hrest Ht Hshell.
  destruct (digits_plain major H1) as (_ & _ & D1).
  destruct (digits_plain minor H2) as (_ & _ & D2).
  assert (D : string_forall no_dot (String.append minor (String c rest)) = true).
  { rewrite string_forall_app. cbn [string_forall]. now rewrite D2, Hdot, Hrest. }
  unfold kernel_version. rewrite Hshell, (split_on_sep _ _ D1).
  assert (E : exists more,
             split_on "." (String.append (String.append minor (String c rest)) tail)
             = String.append minor (String c rest) :: more).
  { destruct Ht as [->|[r ->]].
    - rewrite append_empty_r, (split_on_last _ D). now exists [].
    - rewrite (split_on_sep _ _ D). now eexists. }
  destruct E as [more ->]. cbn [String.append].
  now rewrite (py_float_suffix major minor c rest H1 H2 Hne Hd Hs Hu He HE).
Qed.

Lemma kernel_version_suffix_witness :
  kernel_version (Some (device_of "3.10-rc1" EmptyString)) = Raise ValueError
  /\ kernel_version (Some (device_of "3.18+.5" EmptyString)) = Raise ValueError.
Proof.
  split.
  - apply (kernel_version_suffix _ "3" "10" "-" "rc1" EmptyString);
      try reflexivity; [discriminate|now left].
  - apply (kernel_version_suffix _ "3" "18" "+" EmptyString ".5");
      try reflexivity; [discriminate|right; now eexists].
Defined.

(** X3.  Whatever [kernel_version] returns is one of the two profiles of the
    catalog, and under it [disable_selinux] finds its three addresses. *)
Theorem kernel_version_catalogue dev ver comm parent selinux ps :
  kernel_version dev = Ret (ver, comm, parent, selinux, ps) ->
  ((comm, parent, selinux, ps) = profile_A
   \/ (comm, parent, selinux, ps) = profile_B)
  /\ forall magic stealthy s,
      fst (disable_selinux
             (mkOptions magic stealthy ver comm parent selinux ps) s)
      = Ret tt.
Proof.
  unfold kernel_version. intros H.
  destruct dev as [shell|]; [|discriminate H].
  destruct (split_on "." (shell "uname -r")) as [|r0 [|r1 more]];
    try discriminate H.
  destruct (py_float _) as [v|]; [|discriminate H].
  destruct (float_le v lit_3_10).
  - inversion H; subst. split; [now left|reflexivity].
  - destruct (float_gt v lit_3_10 && float_le v lit_3_18);
      [|discriminate H].
    inversion H; subst. split; [now right|reflexivity].
Qed.

Lemma kernel_version_catalogue_witness :
  fst (disable_selinux
         (mkOptions "shell" false lit_3_18 0x444 0xe0
                    [0xC0C4F288; 0xC0C4F28C; 0xC0C4F280] "ps -A")
         absent_session)
  = Ret tt.
Proof.
  destruct (kernel_version_catalogue (Some (device_of "3.18.91+" EmptyString))
              lit_3_18 0x444 0xe0 [0xC0C4F288; 0xC0C4F28C; 0xC0C4F280] "ps -A")
    as [_ H]; [vm_compute; reflexivity|].
  apply H.
Defined.

(** X4.  Versions are compared as the decimal numbers they spell, for minor
    parts of up to 15 digits: [3.4] is above [3.18] and refused, [3.1] and
    [3.100] are [3.10]. *)
Theorem kernel_version_compares_numbers shell neg major minor tail :
  all_digits major = true -> all_digits minor = true ->
  major <> EmptyString -> dotted_tail tail ->
  shell "uname -r" = String.append (version_text neg major minor) tail ->
  (String.length minor <= 15)%nat ->
  let v := version_value neg major minor in
  ((v <= 3.10)%Q -> resolves (kernel_version (Some shell)) profile_A)
  /\ ((3.10 < v)%Q /\ (v <= 3.18)%Q ->
      resolves (kernel_version (Some shell)) profile_B)
  /\ ((3.18 < v)%Q -> kernel_version (Some shell) = Raise unsupported).
Proof.
  intros H1 H2 Hne Ht Hs Hlen.
  apply (kernel_version_numeric shell neg major minor tail H1 H2 Hne Ht Hs).
  now left.
Qed.

Lemma kernel_version_compares_numbers_witness :
  kernel_version (Some (device_of "3.4.67" EmptyString)) = Raise unsupported
  /\ resolves (kernel_version (Some (device_of "3.100" EmptyString))) profile_A.
Proof.
  split.
  - refine (proj2 (proj2 (kernel_version_compares_numbers
                (device_of "3.4.67" EmptyString) false "3" "4" ".67"
                eq_refl eq_refl _ _ eq_refl _)) _).
    + discriminate.
    + right. now eexists.
    + simpl. lia.
    + vm_compute. reflexivity.
  - refine (proj1 (kernel_version_compares_numbers
                (device_of "3.100" EmptyString) false "3" "100" EmptyString
                eq_refl eq_refl _ _ eq_refl _) _).
    + discriminate.
    + now left.
    + simpl. lia.
    + vm_compute. discriminate.
Defined.

(** ** The liveness check *)

Lemma prefix_occurs n : forall h,
  String.prefix n h = true <-> exists post, h = String.append n post.
Proof.
  induction n as [|c n IH]; intros h.
  - split; [intros _; now exists h|intros _; now destruct h].
  - destruct h as [|d h]; cbn [String.prefix String.append].
    + split; [discriminate|intros [post E]; discriminate E].
    + destruct (ascii_dec c d) as [->|Hcd].
      * rewrite IH. split; intros [post E]; exists post;
          [now rewrite E|now inversion E].
      * split; [discriminate|intros [post E]; inversion E; congruence].
Qed.

Lemma contains_occurs n : forall h, contains n h = true <-> occurs_in n h.
Proof.
  induction h as [|d h IH]; cbn [contains]; rewrite orb_true_iff, prefix_occurs.
  - split.
    + intros [[post E]|E]; [|discriminate E]. now exists EmptyString, post.
    + intros (pre & post & E). left. destruct pre; [|discriminate E].
      now exists post.
  - rewrite IH. split.
    + intros [[post E]|(pre & post & E)].
      * now exists EmptyString, post.
      * exists (String d pre), post. cbn [String.append]. now rewrite E.
    + intros (pre & post & E). destruct pre as [|c pre].
      * left. now exists post.
      * right. inversion E. now exists pre, post.
Qed.

Lemma check_present process pscmd (shell : device) :
  occurs_in process (shell pscmd) ->
  check_process_is_running process pscmd (Some shell) = Ret tt.
Proof.
  intros H. apply contains_occurs in H. unfold check_process_is_running.
  now rewrite H.
Qed.

Lemma check_absent process pscmd (shell : device) :
  ~ occurs_in process (shell pscmd) ->
  check_process_is_running process pscmd (Some shell) = Raise (SystemExit 1).
Proof.
  intros H. unfold check_process_is_running.
  destruct (contains process (shell pscmd)) eqn:E; [|reflexivity].
  apply contains_occurs in E. contradiction.
Qed.

(** X5.  [check_process_is_running] passes exactly when the name occurs somewhere
    in what the [ps] command prints, as a substring: it exits with status 1
    otherwise, and raises when there is no device. *)
Theorem check_process_is_running_substring process pscmd (shell : device) :
  (occurs_in process (shell pscmd) ->
   check_process_is_running process pscmd (Some shell) = Ret tt)
  /\ (~ occurs_in process (shell pscmd) ->
      check_process_is_running process pscmd (Some shell)
      = Raise (SystemExit 1))
  /\ check_process_is_running process pscmd None = Raise invalid_device.
Proof.
  split; [apply check_present|]. split; [apply check_absent|reflexivity].
Qed.

Lemma check_process_is_running_substring_witness :
  check_process_is_running "sh" "ps"
    (Some (device_of "3.10.0+" "root 1 0 /sbin/ueventd bash")) = Ret tt
  /\ check_process_is_running "STAGER" "ps"
       (Some (device_of "3.10.0+" "root 1 0 /sbin/ueventd bash"))
     = Raise (SystemExit 1).
Proof.
  split.
  - apply (check_process_is_running_substring "sh" "ps").
    now exists "root 1 0 /sbin/ueventd ba", EmptyString.
  - apply (check_process_is_running_substring "STAGER" "ps").
    intros H. apply contains_occurs in H. discriminate H.
Defined.

(** ** Failures before the debugger is started *)

(** X6.  When the kernel version is not resolved, or the process is not in the
    output of the [ps] command the version selects, the run ends with that
    error and the session is as it was: no command has gone to GDB. *)
Theorem main_fails_before_gdb magic stealthy fuel s :
  (forall mode dev e,
      kernel_version dev = Raise e ->
      main mode magic stealthy dev s = (Raise e, s))
  /\ (forall shell ver comm parent selinux ps,
         kernel_version (Some shell) = Ret (ver, comm, parent, selinux, ps) ->
         (~ occurs_in magic (shell ps) ->
          main single_mode magic stealthy (Some shell) s
          = (Raise (SystemExit 1), s))
         /\ (~ occurs_in "STAGER" (shell ps) ->
             main (setuid_mode fuel) magic stealthy (Some shell) s
             = (Raise (SystemExit 1), s)
             /\ main (adbd_mode fuel) magic stealthy (Some shell) s
                = (Raise (SystemExit 1), s))).
Proof.
  split.
  - intros mode dev e H. unfold main. now rewrite H.
  - intros shell ver comm parent selinux ps H. unfold main. rewrite H.
    split.
    + intros Hno.
      unfold single_mode. unfold bind at 1. unfold lift.
      cbn [magic_name ps_cmd].
      rewrite (check_absent magic ps shell Hno). reflexivity.
    + intros Hno. split.
      * unfold setuid_mode. unfold bind at 1. unfold lift. cbn [ps_cmd].
        rewrite (check_absent "STAGER" ps shell Hno). reflexivity.
      * unfold adbd_mode. unfold bind at 1. unfold lift. cbn [ps_cmd].
        rewrite (check_absent "STAGER" ps shell Hno). reflexivity.
Qed.

Lemma main_fails_before_gdb_witness :
  fst (main single_mode "shell" false (Some (device_of "4.4.124+" "shell"))
         chain_session)
  = Raise unsupported
  /\ fst (main (adbd_mode 5) "shell" true
            (Some (device_of "3.18.91" "adbd sh")) chain_session)
     = Raise (SystemExit 1)
  /\ sent (snd (main (adbd_mode 5) "shell" true
                  (Some (device_of "3.18.91" "adbd sh")) chain_session))
     = [].
Proof.
  pose proof (main_fails_before_gdb "shell" false 5%nat chain_session) as F.
  pose proof (main_fails_before_gdb "shell" true 5%nat chain_session) as T.
  rewrite (proj1 F single_mode (Some (device_of "4.4.124+" "shell"))
             unsupported) by (vm_compute; reflexivity).
  assert (E : main (adbd_mode 5) "shell" true
                (Some (device_of "3.18.91" "adbd sh")) chain_session
              = (Raise (SystemExit 1), chain_session)).
  { refine (proj2 (proj2 (proj2 T (device_of "3.18.91" "adbd sh") lit_3_18
                            0x444 0xe0 [0xC0C4F288; 0xC0C4F28C; 0xC0C4F280]
                            "ps -A" _) _)).
    - vm_compute. reflexivity.
    - intros H. apply contains_occurs in H. discriminate H. }
  rewrite E. repeat split.
Defined.

(** ** A stub that cannot be reached *)

Lemma init_down s :
  remote_up s = false ->
  init s
  = (Raise (PyException "GDB server not reachable. Did you start it?"),
     closed (logged [TargetRemote] s)).
Proof. intros H. unfold init. cbn [log_cmd remote_up]. now rewrite H. Qed.

(** X7.  When [target remote] is not answered, every mode that got past the
    liveness check ends with the error of [__init__]: GDB has been told to
    exit, and the two commands are all that was sent. *)
Theorem unreachable_stub_stops_every_mode o (shell : device) fuel s :
  remote_up s = false ->
  let failure : outcome unit * session :=
    (Raise (PyException "GDB server not reachable. Did you start it?"),
     closed (logged [TargetRemote] s)) in
  (occurs_in (magic_name o) (shell (ps_cmd o)) ->
   single_mode o (Some shell) s = failure)
  /\ (occurs_in "STAGER" (shell (ps_cmd o)) ->
      setuid_mode fuel o (Some shell) s = failure
      /\ adbd_mode fuel o (Some shell) s = failure).
Proof.
  intros Hdown failure. split.
  - intros H. unfold single_mode. unfold bind at 1. unfold lift.
    rewrite (check_present _ _ _ H). unfold bind at 1.
    now rewrite (init_down s Hdown).
  - intros H. split.
    + unfold setuid_mode. unfold bind at 1. unfold lift.
      rewrite (check_present _ _ _ H). unfold bind at 1.
      now rewrite (init_down s Hdown).
    + unfold adbd_mode. unfold bind at 1. unfold lift.
      rewrite (check_present _ _ _ H). unfold bind at 1.
      now rewrite (init_down s Hdown).
Qed.

Lemma unreachable_stub_stops_every_mode_witness :
  exited (snd (single_mode (options_A "shell" false)
                 (Some (device_of "3.10.0+" "shell")) unreachable_session))
  = true
  /\ sent (snd (single_mode (options_A "shell" false)
                  (Some (device_of "3.10.0+" "shell")) unreachable_session))
     = [TargetRemote; GdbExit].
Proof.
  rewrite (proj1 (unreachable_stub_stops_every_mode
                    (options_A "shell" false) (device_of "3.10.0+" "shell")
                    0%nat unreachable_session eq_refl)).
  - split; reflexivity.
  - now exists EmptyString, EmptyString.
Defined.

(** ** Word reads over any transport *)

Lemma read_mem_answered a s g :
  glitches s = false :: g ->
  read_mem a 0 s
  = (Ret (PyInt (load_word a (mem s))),
     mkSession (mem s) (strings s) (matches s) g (remote_up s) (exited s)
               (sent s ++ [ExamineWord a])).
Proof.
  intros H. unfold read_mem, read_mem_depth, gdb_examine_word.
  rewrite H. reflexivity.
Qed.

Lemma read_mem_retry_last a s :
  glitches s = [true] ->
  read_mem a 0 s
  = (Ret PyNone,
     mkSession (mem s) (strings s) (matches s) [] (remote_up s) (exited s)
               (sent s ++ [ExamineWord a] ++ [ExamineWord a])).
Proof.
  intros H. unfold read_mem, read_mem_depth, gdb_examine_word, bind, ret.
  rewrite H. cbn. unfold log_cmd. cbn. now rewrite <- app_assoc.
Qed.

(** X8.  [read_mem] always ends, after one or two reads of the same address, and
    what it yields is decided by the first two replies: the word, if the
    first is well formed; [None], never the word, if only the second is; the
    timeout error, with GDB told to exit, if neither is.  The memory is not
    touched. *)
Theorem read_mem_outcomes a s :
  let r := read_mem a 0 s in
  mem (snd r) = mem s
  /\ match glitches s with
     | true :: true :: _ =>
         fst r = Raise (PyException "GDB timeout reached. Quit")
         /\ exited (snd r) = true
         /\ sent (snd r)
            = sent s ++ [ExamineWord a; ExamineWord a; GdbExit]
     | true :: _ =>
         fst r = Ret PyNone
         /\ exited (snd r) = exited s
         /\ sent (snd r) = sent s ++ [ExamineWord a; ExamineWord a]
     | _ =>
         fst r = Ret (PyInt (load_word a (mem s)))
         /\ exited (snd r) = exited s
         /\ sent (snd r) = sent s ++ [ExamineWord a]
     end.
Proof.
  cbv zeta. destruct (glitches s) as [|[|] [|[|] g]] eqn:E.
  - rewrite (read_mem_quiet a s E). repeat split.
  - rewrite (read_mem_retry_last a s E). repeat split.
  - rewrite (read_mem_gives_up a s g E). repeat split.
  - rewrite (read_mem_retry_none a s g E). repeat split.
  - rewrite (read_mem_answered a s [] E). repeat split.
  - rewrite (read_mem_answered a s _ E). repeat split.
  - rewrite (read_mem_answered a s _ E). repeat split.
Qed.

(** ** What the locator and the walk leave alone *)

Lemma reads_only_bind {A B} (m : M A) (k : A -> M B) :
  reads_only m -> (forall a, reads_only (k a)) -> reads_only (bind m k).
Proof.
  intros Hm Hk s. unfold bind.
  destruct (Hm s) as (M1 & S1 & F1 & l1 & E1 & N1).
  destruct (m s) as [[a| e|] s1]; cbn [snd] in *;
    try (repeat (split; [assumption|]); exists l1; now split).
  destruct (Hk a s1) as (M2 & S2 & F2 & l2 & E2 & N2).
  split; [congruence|]. split; [congruence|]. split; [congruence|].
  exists (l1 ++ l2). rewrite E2, E1, app_assoc. split; [reflexivity|].
  intros x v Hin. apply in_app_or in Hin as [Hin|Hin];
    [exact (N1 x v Hin)|exact (N2 x v Hin)].
Qed.

Lemma reads_only_pure {A} (o : outcome A) : reads_only (lift o).
Proof.
  intros s. repeat split. exists []. cbn. rewrite app_nil_r.
  split; [reflexivity|]. intros a v [].
Qed.

Lemma reads_only_read_mem a : reads_only (read_mem a 0).
Proof.
  intros s. destruct (glitches s) as [|[|] [|[|] g]] eqn:E;
    [rewrite (read_mem_quiet a s E)
    |rewrite (read_mem_retry_last a s E)
    |rewrite (read_mem_gives_up a s g E)
    |rewrite (read_mem_retry_none a s g E)
    |rewrite (read_mem_answered a s _ E)..];
    cbn [snd mem strings matches sent logged];
    (repeat (split; [reflexivity|])); eexists; (split; [reflexivity|]);
    intros x v Hin; cbn [In app] in Hin;
    repeat (destruct Hin as [Hin|Hin]; [discriminate Hin|]); exact Hin.
Qed.

Lemma reads_only_read_str a : reads_only (read_str a).
Proof.
  intros s. repeat split. exists [ExamineString a]. split; [reflexivity|].
  intros x v [H|[]]. discriminate H.
Qed.

Lemma reads_only_find name : reads_only (find name).
Proof.
  intros s. repeat split. exists [Find name]. split; [reflexivity|].
  intros x v [H|[]]. discriminate H.
Qed.

Lemma reads_only_scan o cs : reads_only (scan_candidates o cs).
Proof.
  induction cs as [|c cs IH].
  - exact (reads_only_pure (Raise _)).
  - cbn [scan_candidates].
    apply reads_only_bind; [apply reads_only_read_mem|]. intros v1.
    apply reads_only_bind; [apply reads_only_read_mem|]. intros v2.
    destruct (py_eq v1 v2); [exact (reads_only_pure (Ret _))|exact IH].
Qed.

Lemma reads_only_walk o fuel : forall cur,
  reads_only (get_adbd_cred_struct fuel o cur).
Proof.
  induction fuel as [|fuel IH]; intros cur.
  - exact (reads_only_pure Spin).
  - cbn [get_adbd_cred_struct].
    apply reads_only_bind; [apply reads_only_read_mem|]. intros [parent|].
    + apply reads_only_bind; [apply reads_only_read_str|]. intros name.
      destruct (String.eqb name (quoted "adbd"));
        [apply reads_only_read_mem|apply IH].
    + exact (reads_only_pure (Raise _)).
Qed.

(** X9.  Neither the locator nor the ancestry walk changes the target, whatever
    the transport does and however they end: the memory is as it was and no
    write is among the commands they send. *)
Theorem locate_and_walk_read_only o :
  (forall process, reads_only (get_process_task_struct o process))
  /\ (forall fuel cur, reads_only (get_adbd_cred_struct fuel o cur)).
Proof.
  split.
  - intros process. unfold get_process_task_struct.
    apply reads_only_bind; [apply reads_only_find|]. intros addresses.
    apply reads_only_scan.
  - intros fuel cur. apply reads_only_walk.
Qed.

(** ** What the locator returns *)

Lemma scan_returns o cs : forall s T,
  fst (scan_candidates o cs s) = Ret T ->
  exists c, In c cs /\ T = c - offset_to_comm o.
Proof.
  induction cs as [|c cs IH]; intros s T H; [discriminate H|].
  cbn [scan_candidates] in H. unfold bind in H.
  destruct (read_mem (c - 8) 0 s) as [[v1|e|] s1]; try discriminate H.
  destruct (read_mem (c - 4) 0 s1) as [[v2|e|] s2]; try discriminate H.
  destruct (py_eq v1 v2).
  - inversion H. exists c. split; [now left|reflexivity].
  - destruct (IH s2 T H) as (c' & Hin & E). exists c'. split; [now right|exact E].
Qed.

(** X10.  Whatever the transport does, a task structure the locator returns is a
    search result for the name, moved back by [offset_to_comm], and that
    search result passes the alignment test. *)
Theorem locate_returns_aligned_match o process s T :
  fst (get_process_task_struct o process s) = Ret T ->
  In (T + offset_to_comm o) (matches s process)
  /\ (T + offset_to_comm o) mod 16 = offset_to_comm o mod 16.
Proof.
  unfold get_process_task_struct, bind, find. intros H.
  apply scan_returns in H as (c & Hin & ->).
  cbn [matches log_cmd] in Hin. apply filter_In in Hin as [Hin Ha].
  replace (c - offset_to_comm o + offset_to_comm o) with c by lia.
  split; [exact Hin|]. unfold aligned in Ha. now apply Z.eqb_eq in Ha.
Qed.

Lemma locate_returns_aligned_match_witness :
  In (0xC1000000 + 0x288) (matches chain_session "STAGER")
  /\ (0xC1000000 + 0x288) mod 16 = 0x288 mod 16.
Proof.
  apply (locate_returns_aligned_match (options_A "STAGER" false) "STAGER"
           chain_session 0xC1000000).
  vm_compute. reflexivity.
Defined.

(** ** What the walk returns *)

(** X11.  Over a transport that answers every read well the walk never raises;
    what it returns is the word before the name of the first ancestor named
    adbd, reached within the steps taken; and where it is still running, none
    of the ancestors seen so far is named adbd. *)
Theorem walk_returns_first_adbd_ancestor o fuel : forall cur s,
  glitches s = [] ->
  match fst (get_adbd_cred_struct fuel o cur s) with
  | Ret v =>
      exists k,
        (k < fuel)%nat
        /\ (forall n, (n < k)%nat ->
                      named_adbd o s (ancestor o s (S n) cur) = false)
        /\ named_adbd o s (ancestor o s (S k) cur) = true
        /\ v = PyInt (load_word (ancestor o s (S k) cur + offset_to_comm o - 4)
                                (mem s))
  | Raise _ => False
  | Spin =>
      forall n, (n < fuel)%nat ->
                named_adbd o s (ancestor o s (S n) cur) = false
  end.
Proof.
  induction fuel as [|fuel IH]; intros cur s Hq.
  - cbn. intros n Hn. lia.
  - rewrite (walk_step o fuel cur s Hq).
    destruct (named_adbd o s (parent_of o s cur)) eqn:N.
    + cbn [fst]. exists 0%nat. split; [lia|]. split; [intros n Hn; lia|].
      split; [exact N|reflexivity].
    + specialize (IH (parent_of o s cur)
                    (logged [ExamineWord (cur + offset_to_comm o - offset_to_parent o);
                             ExamineString (parent_of o s cur + offset_to_comm o)] s)
                    Hq).
      destruct (fst (get_adbd_cred_struct fuel o (parent_of o s cur) _))
        as [v|e|].
      * destruct IH as (k & Hk & Hbefore & Hat & Hv).
        exists (S k). split; [lia|]. split.
        { intros [|n] Hn; [exact N|].
          specialize (Hbefore n ltac:(lia)).
          now rewrite named_adbd_logged, ancestor_logged in Hbefore. }
        split.
        { now rewrite named_adbd_logged, ancestor_logged in Hat. }
        rewrite ancestor_logged in Hv. exact Hv.
      * exact IH.
      * intros [|n] Hn; [exact N|].
        specialize (IH n ltac:(lia)).
        now rewrite named_adbd_logged, ancestor_logged in IH.
Qed.

Lemma walk_returns_first_adbd_ancestor_witness :
  exists k,
    (k < 5)%nat
    /\ (forall n, (n < k)%nat ->
                  named_adbd (options_A "STAGER" false) chain_session
                    (ancestor (options_A "STAGER" false) chain_session
                              (S n) 0xC1000000) = false)
    /\ named_adbd (options_A "STAGER" false) chain_session
         (ancestor (options_A "STAGER" false) chain_session (S k)
                   0xC1000000) = true
    /\ PyInt 0xC2001000
       = PyInt (load_word
                  (ancestor (options_A "STAGER" false) chain_session
                            (S k) 0xC1000000
                   + offset_to_comm (options_A "STAGER" false) - 4)
                  (mem chain_session)).
Proof.
  pose proof (walk_returns_first_adbd_ancestor (options_A "STAGER" false) 5
                0xC1000000 chain_session eq_refl) as H.
  assert (E : fst (get_adbd_cred_struct 5 (options_A "STAGER" false)
                     0xC1000000 chain_session)
              = Ret (PyInt 0xC2001000)) by (vm_compute; reflexivity).
  rewrite E in H. exact H.
Defined.

(** ** Retried reads in the locator and in the walk *)

Lemma read_mem_retried a s g :
  glitches s = true :: g -> hd false g = false ->
  read_mem a 0 s
  = (Ret PyNone,
     mkSession (mem s) (strings s) (matches s) (tl g) (remote_up s) (exited s)
               (sent s ++ [ExamineWord a; ExamineWord a])).
Proof.
  intros H Hg. destruct g as [|[|] g]; [|discriminate Hg|].
  - now rewrite (read_mem_retry_last a s H).
  - now rewrite (read_mem_retry_none a s g H).
Qed.

Lemma read_mem_first a s :
  hd false (glitches s) = false ->
  read_mem a 0 s
  = (Ret (PyInt (load_word a (mem s))),
     mkSession (mem s) (strings s) (matches s) (tl (glitches s))
               (remote_up s) (exited s) (sent s ++ [ExamineWord a])).
Proof.
  intros H. destruct (glitches s) as [|[|] g] eqn:E; [|discriminate H|].
  - rewrite (read_mem_quiet a s E). unfold logged. now rewrite E.
  - now rewrite (read_mem_answered a s g E).
Qed.

(** X12.  A read that succeeds at its second try yields [None], and the locator
    compares what the reads yield: when both reads of the first aligned
    candidate are retried it is accepted whatever the two words are; when
    only the first is, the candidate is rejected whatever they are, and a
    locator with no other candidate raises, the session left open. *)
Theorem locate_misled_by_retries o process s c rest g :
  filter (aligned o) (matches s process) = c :: rest ->
  glitches s = true :: false :: g ->
  let r := get_process_task_struct o process s in
  (forall g', g = true :: false :: g' -> fst r = Ret (c - offset_to_comm o))
  /\ (hd false g = false -> rest = [] ->
      fst r = Raise (PyException "Could not find process task struct")
      /\ exited (snd r) = exited s).
Proof.
  intros Hf Hg r.
  assert (E : r = (magic_cred_ptr2 <- read_mem (c - 4) 0 ;;
                   if py_eq PyNone magic_cred_ptr2
                   then ret (c - offset_to_comm o)
                   else scan_candidates o rest)
                    (mkSession (mem s) (strings s) (matches s) g (remote_up s)
                       (exited s)
                       ((sent s ++ [Find process])
                        ++ [ExamineWord (c - 8)] ++ [ExamineWord (c - 8)]))).
  { subst r. unfold get_process_task_struct.
    unfold bind at 1. unfold find. rewrite Hf. cbn [scan_candidates].
    unfold bind at 1.
    rewrite (read_mem_retry_none (c - 8) (log_cmd (Find process) s) g Hg).
    reflexivity. }
  rewrite E. clear E r. unfold bind. split.
  - intros g' ->.
    rewrite (read_mem_retry_none
               (c - 4) (mkSession _ _ _ (true :: false :: g') _ _ _) g'
               eq_refl).
    reflexivity.
  - intros Hh ->. rewrite read_mem_first by exact Hh.
    cbn [py_eq scan_candidates raise fst snd exited].
    split; reflexivity.
Qed.

Lemma locate_misled_by_retries_witness :
  fst (get_process_task_struct (options_A "STAGER" false) "STAGER"
         (scheduled_session [true; false; true; false]))
  = Ret (0xC1000288 - 0x288)
  /\ fst (get_process_task_struct (options_A "STAGER" false) "STAGER"
            (scheduled_session [true; false]))
     = Raise (PyException "Could not find process task struct").
Proof.
  split.
  - refine (proj1 (locate_misled_by_retries (options_A "STAGER" false)
                     "STAGER" (scheduled_session [true; false; true; false])
                     0xC1000288 [] [true; false] _ _) [] eq_refl).
    + vm_compute. reflexivity.
    + reflexivity.
  - refine (proj1 (proj2 (locate_misled_by_retries (options_A "STAGER" false)
                            "STAGER" (scheduled_session [true; false])
                            0xC1000288 [] [] _ _) eq_refl eq_refl)).
    + vm_compute. reflexivity.
    + reflexivity.
Defined.

(** X13.  When the read of a parent pointer succeeds at its second try, the walk
    adds [offset_to_comm] to [None]: it ends with [TypeError] after the two
    reads, before any name is read, and GDB is not told to exit. *)
Theorem walk_retry_raises_type_error o fuel cur s g :
  glitches s = true :: g -> hd false g = false ->
  let r := get_adbd_cred_struct (S fuel) o cur s in
  fst r = Raise TypeError
  /\ exited (snd r) = exited s
  /\ sent (snd r)
     = sent s ++ [ExamineWord (cur + offset_to_comm o - offset_to_parent o);
                  ExamineWord (cur + offset_to_comm o - offset_to_parent o)].
Proof.
  intros Hg Hh r.
  assert (E : r = (Raise TypeError,
                   mkSession (mem s) (strings s) (matches s) (tl g)
                     (remote_up s) (exited s)
                     (sent s
                      ++ [ExamineWord (cur + offset_to_comm o - offset_to_parent o);
                          ExamineWord (cur + offset_to_comm o - offset_to_parent o)]))).
  { subst r. cbn [get_adbd_cred_struct]. unfold bind at 1.
    now rewrite (read_mem_retried _ s g Hg Hh). }
  rewrite E. repeat split.
Qed.

Lemma walk_retry_raises_type_error_witness :
  fst (get_adbd_cred_struct 5 (options_A "STAGER" false) 0xC1000000
         (scheduled_session [true; false]))
  = Raise TypeError
  /\ exited (snd (get_adbd_cred_struct 5 (options_A "STAGER" false) 0xC1000000
                    (scheduled_session [true; false])))
     = false.
Proof.
  destruct (walk_retry_raises_type_error (options_A "STAGER" false) 4
              0xC1000000 (scheduled_session [true; false]) [false]
              eq_refl eq_refl) as (H1 & H2 & _).
  split; [exact H1|exact H2].
Defined.

(** ** The SELinux switch *)

Lemma load_word_bytes m a b :
  (forall i, 0 <= i < 4 -> m (a + i) = b) ->
  load_word a m
  = b mod 256 + 256 * (b mod 256) + 65536 * (b mod 256)
    + 16777216 * (b mod 256).
Proof.
  intros B. unfold load_word. rewrite (B 1), (B 2), (B 3) by lia.
  pose proof (B 0 ltac:(lia)) as B0. rewrite Z.add_0_r in B0. now rewrite B0.
Qed.

Lemma uniform_flags (fs : list Z) : uniform 0 (map (fun f => (f, 0)) fs).
Proof.
  intros a v i Hin Hi. apply in_map_iff in Hin as (f & E & _).
  injection E as <- <-. now apply bytes_of_zero.
Qed.

Lemma covered_flags (fs : list Z) x :
  covered (map (fun f => (f, 0)) fs) x
  <-> exists f, In f fs /\ f <= x < f + 4.
Proof.
  split.
  - intros (a & v & Hin & Hx). apply in_map_iff in Hin as (f & E & Hf).
    injection E as <- <-. now exists f.
  - intros (f & Hf & Hx). exists f, 0. split; [|exact Hx].
    apply in_map_iff. now exists f.
Qed.

(** X14.  [disable_selinux] writes [0] to the first three addresses of
    [offset_selinux], in order, and nothing else: the three words then read
    [0], every byte outside them is as before, and a second run changes no
    byte.  With fewer than three addresses it raises [IndexError], after the
    writes for those there are. *)
Theorem disable_selinux_spec o s :
  let r := disable_selinux o s in
  let flags := firstn 3 (offset_selinux o) in
  sent (snd r) = sent s ++ map (fun f => SetWord f 0) flags
  /\ (forall f, In f flags -> load_word f (mem (snd r)) = 0)
  /\ (forall x, (forall f, In f flags -> x < f \/ f + 4 <= x) ->
                mem (snd r) x = mem s x)
  /\ (forall x, mem (snd (disable_selinux o (snd r))) x = mem (snd r) x)
  /\ ((3 <= List.length (offset_selinux o))%nat -> fst r = Ret tt)
  /\ ((List.length (offset_selinux o) < 3)%nat -> fst r = Raise IndexError).
Proof.
  cbv zeta.
  assert (E : exists w,
             disable_selinux o s
             = (w, written (map (fun f => (f, 0)) (firstn 3 (offset_selinux o))) s)
             /\ disable_selinux o
                  (written (map (fun f => (f, 0)) (firstn 3 (offset_selinux o))) s)
                = (w, written (map (fun f => (f, 0)) (firstn 3 (offset_selinux o)))
                        (written (map (fun f => (f, 0))
                                      (firstn 3 (offset_selinux o))) s))
             /\ ((3 <= List.length (offset_selinux o))%nat -> w = Ret tt)
             /\ ((List.length (offset_selinux o) < 3)%nat -> w = Raise IndexError)).
  { unfold disable_selinux.
    destruct (offset_selinux o) as [|f0 [|f1 [|f2 more]]]; cbn [List.length].
    - exists (Raise IndexError). repeat split; try reflexivity; lia.
    - exists (Raise IndexError). repeat split; try reflexivity; lia.
    - exists (Raise IndexError). repeat split; try reflexivity; lia.
    - exists (Ret tt). repeat split; try reflexivity; lia. }
  destruct E as (w & E1 & E2 & Hok & Hshort). rewrite E1. cbn [fst snd].
  rewrite E2. cbn [snd].
  set (fs := firstn 3 (offset_selinux o)).
  pose proof (uniform_flags fs) as U.
  split.
  { rewrite sent_written, map_map. reflexivity. }
  split.
  { intros f Hf.
    rewrite (load_written 0 _ s f 0 U); [reflexivity|].
    apply in_map_iff. now exists f. }
  split.
  { intros x Hx. apply mem_written_outside. intros Hc.
    apply covered_flags in Hc as (f & Hf & Hr).
    destruct (Hx f Hf); lia. }
  split.
  { intros x. now apply (written_idempotent 0). }
  split; assumption.
Qed.

Lemma disable_selinux_spec_witness :
  load_word 0xC0A7754C
    (mem (snd (disable_selinux (options_A "shell" false) chain_session)))
  = 0
  /\ fst (disable_selinux (options_A "shell" false) chain_session) = Ret tt
  /\ fst (disable_selinux
            (mkOptions "shell" false lit_3_10 0x288 0xe0 [0xC0A77548] "ps")
            chain_session)
     = Raise IndexError.
Proof.
  destruct (disable_selinux_spec (options_A "shell" false) chain_session)
    as (_ & L & _ & _ & R & _).
  destruct (disable_selinux_spec
              (mkOptions "shell" false lit_3_10 0x288 0xe0 [0xC0A77548] "ps")
              chain_session)
    as (_ & _ & _ & _ & _ & X).
  split; [apply L; right; left; reflexivity|].
  split; [apply R; cbn; lia|apply X; cbn; lia].
Defined.

(** ** Single mode *)

Lemma covered_ids cred x :
  covered (words_at cred 0 (id_offsets ++ eid_offsets)) x
  <-> cred + 0x04 <= x < cred + 0x24.
Proof.
  rewrite covered_words. split.
  - intros (ofs & Hin & Hx). cbn [id_offsets eid_offsets app In] in Hin. lia.
  - intros Hx.
    pose proof (Z.div_mod (x - cred) 4 ltac:(lia)) as D.
    pose proof (Z.mod_pos_bound (x - cred) 4 ltac:(lia)) as B.
    set (q := (x - cred) / 4) in *. set (t := (x - cred) mod 4) in *.
    clearbody q t. exists (4 * q). split; [|lia].
    cbn [id_offsets eid_offsets app In].
    assert (H4 : q = 1 \/ q = 2 \/ q = 3 \/ q = 4 \/ q = 5 \/ q = 6
                 \/ q = 7 \/ q = 8) by lia.
    lia.
Qed.

Lemma covered_caps cred x :
  covered (words_at cred 0xffffffff cap_offsets) x
  <-> cred + 0x30 <= x < cred + 0x48.
Proof.
  rewrite covered_words. split.
  - intros (ofs & Hin & Hx). cbn [cap_offsets In] in Hin. lia.
  - intros Hx.
    pose proof (Z.div_mod (x - cred) 4 ltac:(lia)) as D.
    pose proof (Z.mod_pos_bound (x - cred) 4 ltac:(lia)) as B.
    set (q := (x - cred) / 4) in *. set (t := (x - cred) mod 4) in *.
    clearbody q t. exists (4 * q). split; [|lia].
    cbn [cap_offsets In].
    assert (H4 : q = 12 \/ q = 13 \/ q = 14 \/ q = 15 \/ q = 16
                 \/ q = 17) by lia.
    lia.
Qed.

(** The memory after the identity words, the capability words and the flags
    [fs] have been written, in this order. *)
Lemma patched_memory cred (fs : list Z) s :
  let s' := written (map (fun f => (f, 0)) fs)
              (written (words_at cred 0xffffffff cap_offsets)
                 (written (words_at cred 0 (id_offsets ++ eid_offsets)) s)) in
  (forall ofs, In ofs [0x04; 0x08; 0x0c; 0x10; 0x14; 0x18; 0x1c; 0x20] ->
               load_word (cred + ofs) (mem s') = 0)
  /\ (forall f, In f fs -> load_word f (mem s') = 0)
  /\ (forall ofs, In ofs [0x30; 0x34; 0x38; 0x3c; 0x40; 0x44] ->
                  (forall f, In f fs ->
                             f + 4 <= cred + ofs \/ cred + ofs + 4 <= f) ->
                  load_word (cred + ofs) (mem s') = 0xffffffff)
  /\ (forall x, x < cred + 0x04 \/ cred + 0x24 <= x < cred + 0x30
                \/ cred + 0x48 <= x ->
                (forall f, In f fs -> x < f \/ f + 4 <= x) ->
                mem s' x = mem s x).
Proof.
  intros s'. subst s'.
  pose proof (uniform_words cred 0 0 (id_offsets ++ eid_offsets) bytes_of_zero)
    as Uids.
  pose proof (uniform_words cred 0xffffffff 255 cap_offsets bytes_of_ones)
    as Ucaps.
  pose proof (uniform_flags fs) as Uflags.
  split.
  { intros ofs Hin.
    rewrite (load_word_bytes _ (cred + ofs) 0); [reflexivity|].
    intros i Hi.
    destruct (mem_written_cases 0 (map (fun f => (f, 0)) fs)
                (written (words_at cred 0xffffffff cap_offsets)
                   (written (words_at cred 0 (id_offsets ++ eid_offsets)) s))
                (cred + ofs + i) Uflags) as [[E _]|[E _]]; rewrite E;
      [reflexivity|].
    rewrite mem_written_outside
      by (rewrite covered_caps; cbn [In] in Hin; lia).
    apply (mem_written_inside 0); [exact Uids|].
    apply covered_ids. cbn [In] in Hin. lia. }
  split.
  { intros f Hf. rewrite (load_word_bytes _ f 0); [reflexivity|].
    intros i Hi. apply (mem_written_inside 0); [exact Uflags|].
    apply covered_flags. exists f. split; [exact Hf|lia]. }
  split.
  { intros ofs Hin Hfar.
    rewrite (load_word_bytes _ (cred + ofs) 255); [reflexivity|].
    intros i Hi.
    rewrite mem_written_outside.
    - apply (mem_written_inside 255); [exact Ucaps|].
      apply covered_caps. cbn [In] in Hin. lia.
    - rewrite covered_flags. intros (f & Hf & Hx). destruct (Hfar f Hf); lia. }
  intros x Hx Hfar.
  rewrite mem_written_outside
    by (rewrite covered_flags; intros (f & Hf & Hr); destruct (Hfar f Hf); lia).
  rewrite mem_written_outside by (rewrite covered_caps; lia).
  rewrite mem_written_outside by (rewrite covered_ids; lia).
  reflexivity.
Qed.

(** X15.  A run of single mode on a transport that answers well, once the
    locator has found the process: it returns with GDB told to exit, having
    read the credential pointer once and written, in this order, the eight
    identity words, the six capability words and the three SELinux flags.
    Afterwards the identity words and the flags read [0], the capability
    words read [0xFFFFFFFF] unless a flag lies over them, and no other byte
    of the memory has changed. *)
Theorem single_mode_spec o dev s magic f0 f1 f2 :
  check_process_is_running (magic_name o) (ps_cmd o) dev = Ret tt ->
  remote_up s = true -> glitches s = [] ->
  offset_selinux o = [f0; f1; f2] ->
  let located :=
    get_process_task_struct o (magic_name o) (logged [TargetRemote] s) in
  fst located = Ret magic ->
  let cred := load_word (magic + offset_to_comm o - 8) (mem s) in
  let r := single_mode o dev s in
  fst r = Ret tt
  /\ exited (snd r) = true
  /\ sent (snd r)
     = sent (snd located)
       ++ [ExamineWord (magic + offset_to_comm o - 8)]
       ++ map (fun ofs => SetWord (cred + ofs) 0)
              [0x04; 0x08; 0x0c; 0x10; 0x1c; 0x20; 0x14; 0x18]
       ++ map (fun ofs => SetWord (cred + ofs) 0xffffffff)
              [0x30; 0x34; 0x38; 0x3c; 0x40; 0x44]
       ++ [SetWord f0 0; SetWord f1 0; SetWord f2 0; GdbExit]
  /\ (forall ofs, In ofs [0x04; 0x08; 0x0c; 0x10; 0x14; 0x18; 0x1c; 0x20] ->
                  load_word (cred + ofs) (mem (snd r)) = 0)
  /\ (forall f, In f [f0; f1; f2] -> load_word f (mem (snd r)) = 0)
  /\ (forall ofs, In ofs [0x30; 0x34; 0x38; 0x3c; 0x40; 0x44] ->
                  (forall f, In f [f0; f1; f2] ->
                             f + 4 <= cred + ofs \/ cred + ofs + 4 <= f) ->
                  load_word (cred + ofs) (mem (snd r)) = 0xffffffff)
  /\ (forall x, x < cred + 0x04 \/ cred + 0x24 <= x < cred + 0x30
                \/ cred + 0x48 <= x ->
                (forall f, In f [f0; f1; f2] -> x < f \/ f + 4 <= x) ->
                mem (snd r) x = mem s x).
Proof.
  intros Hps Hup Hq Hsel located Hloc cred r.
  assert (Eloc : located = (Ret magic, snd located))
    by (destruct located; cbn [fst snd] in *; now subst).
  destruct (single_mode_run o dev s magic (snd located) f0 f1 f2 []
              Hps Hup Hq Hsel Eloc) as [Hm1 Erun].
  change (single_mode o dev s) with r in Erun.
  change (load_word (magic + offset_to_comm o - 8) (mem s)) with cred in Erun.
  clearbody r cred located.
  pose proof (patched_memory cred [f0; f1; f2]
                (logged [ExamineWord (magic + offset_to_comm o - 8)]
                        (snd located))) as P.
  cbv zeta in P. cbn [map] in P. destruct P as (Pid & Pflag & Pcap & Pframe).
  destruct (closed_run r _ _ Erun) as (R1 & R2 & R3 & R4).
  assert (Em : mem (snd r)
               = mem (written [(f0, 0); (f1, 0); (f2, 0)]
                        (written (words_at cred 0xffffffff cap_offsets)
                           (written (words_at cred 0 (id_offsets ++ eid_offsets))
                              (logged [ExamineWord (magic + offset_to_comm o - 8)]
                                      (snd located)))))).
  { rewrite R4. unfold own_patch. rewrite <- app_assoc.
    rewrite written_app, written_app. reflexivity. }
  split; [exact R1|]. split; [exact R2|]. split.
  { rewrite R3, sent_written. unfold logged at 1. unfold sent at 1.
    unfold own_patch, words_at.
    rewrite !map_app, !map_map.
    cbn [fst snd map id_offsets eid_offsets cap_offsets app].
    rewrite <- !app_assoc. reflexivity. }
  rewrite Em.
  split; [exact Pid|]. split; [exact Pflag|]. split; [exact Pcap|].
  intros x Hx Hfar. rewrite (Pframe x Hx Hfar). unfold logged, mem at 1.
  now rewrite Hm1.
Qed.

Lemma single_mode_spec_witness :
  fst (single_mode (options_A "shell" false)
         (Some (device_of "3.10.0+" "shell")) shell_at_18) = Ret tt
  /\ exited (snd (single_mode (options_A "shell" false)
                    (Some (device_of "3.10.0+" "shell")) shell_at_18)) = true
  /\ load_word (load_word (0x1000FD90 + 0x288 - 8) (mem shell_at_18) + 0x14)
       (mem (snd (single_mode (options_A "shell" false)
                    (Some (device_of "3.10.0+" "shell")) shell_at_18)))
     = 0.
Proof.
  destruct (single_mode_spec (options_A "shell" false)
              (Some (device_of "3.10.0+" "shell")) shell_at_18 0x1000FD90
              0xC0A77548 0xC0A7754C 0xC0A77550
              eq_refl eq_refl eq_refl eq_refl)
    as (R & X & _ & Z0 & _); [vm_compute; reflexivity|].
  split; [exact R|]. split; [exact X|].
  apply Z0. cbn [In]. tauto.
Defined.

(** ** The staged modes *)




(** ** When GDB is told to exit *)

Lemma exits_on_timeout_bind {A B} (m : M A) (k : A -> M B) :
  exits_on_timeout m -> (forall a, exits_on_timeout (k a)) ->
  exits_on_timeout (bind m k).
Proof.
  intros Hm Hk s Hs. unfold bind. specialize (Hm s Hs).
  destruct (m s) as [[a| e|] s1]; cbn [fst snd] in *.
  - apply Hk. destruct (exited s1); [|reflexivity].
    destruct Hm as [Hm _]. discriminate (Hm eq_refl).
  - rewrite Hm. split; intros H; inversion H; reflexivity.
  - rewrite Hm. split; intros H; discriminate H.
Qed.

Lemma exits_on_timeout_pure {A} (o : outcome A) :
  o <> Raise (PyException "GDB timeout reached. Quit") ->
  exits_on_timeout (lift o).
Proof.
  intros Ho s Hs. cbn. rewrite Hs. split; [discriminate|intros H; contradiction].
Qed.

Lemma exits_on_timeout_read_mem a : exits_on_timeout (read_mem a 0).
Proof.
  intros s Hs. destruct (glitches s) as [|[|] [|[|] g]] eqn:E;
    [rewrite (read_mem_quiet a s E)
    |rewrite (read_mem_retry_last a s E)
    |rewrite (read_mem_gives_up a s g E)
    |rewrite (read_mem_retry_none a s g E)
    |rewrite (read_mem_answered a s _ E)..];
    cbn [fst snd exited logged]; rewrite ?Hs;
    (split; [try discriminate; reflexivity|try discriminate; reflexivity]).
Qed.

Lemma exits_on_timeout_read_str a : exits_on_timeout (read_str a).
Proof. intros s Hs. cbn. rewrite Hs. split; discriminate. Qed.

Lemma exits_on_timeout_scan o cs : exits_on_timeout (scan_candidates o cs).
Proof.
  induction cs as [|c cs IH].
  - apply (exits_on_timeout_pure (Raise _)). discriminate.
  - cbn [scan_candidates].
    apply exits_on_timeout_bind; [apply exits_on_timeout_read_mem|].
    intros v1.
    apply exits_on_timeout_bind; [apply exits_on_timeout_read_mem|].
    intros v2.
    destruct (py_eq v1 v2);
      [apply (exits_on_timeout_pure (Ret _)); discriminate|exact IH].
Qed.

Lemma exits_on_timeout_locate o process :
  exits_on_timeout (get_process_task_struct o process).
Proof.
  unfold get_process_task_struct. apply exits_on_timeout_bind.
  - intros s Hs. cbn. rewrite Hs. split; discriminate.
  - intros addresses. apply exits_on_timeout_scan.
Qed.

Lemma exits_on_timeout_walk o fuel : forall cur,
  exits_on_timeout (get_adbd_cred_struct fuel o cur).
Proof.
  induction fuel as [|fuel IH]; intros cur.
  - apply (exits_on_timeout_pure Spin). discriminate.
  - cbn [get_adbd_cred_struct].
    apply exits_on_timeout_bind; [apply exits_on_timeout_read_mem|].
    intros [parent|].
    + apply exits_on_timeout_bind; [apply exits_on_timeout_read_str|].
      intros name.
      destruct (String.eqb name (quoted "adbd"));
        [apply exits_on_timeout_read_mem|apply IH].
    + apply (exits_on_timeout_pure (Raise _)). discriminate.
Qed.

(** X17.  Started on an open session, the locator and the walk leave it closed
    exactly when they end with the timeout error of [read_mem]: on every
    other exit, normal or not, GDB has not been told to exit. *)
Theorem locate_and_walk_exit_on_timeout_only o :
  (forall process, exits_on_timeout (get_process_task_struct o process))
  /\ (forall fuel cur, exits_on_timeout (get_adbd_cred_struct fuel o cur)).
Proof.
  split; [apply exits_on_timeout_locate|intros fuel; apply exits_on_timeout_walk].
Qed.

(** ** A credential pointer that is [None] *)

(** X18.  In single mode, when the locator's reads are answered and the read of
    the credential pointer succeeds at its second try only, the pointer is
    [None]: the run ends with [TypeError] at the first identity write,
    nothing has been written, and GDB has not been told to exit. *)
Theorem single_mode_retried_credential o (shell : device) s c rest g :
  occurs_in (magic_name o) (shell (ps_cmd o)) ->
  remote_up s = true ->
  filter (aligned o) (matches s (magic_name o)) = c :: rest ->
  load_word (c - 8) (mem s) = load_word (c - 4) (mem s) ->
  glitches s = false :: false :: true :: g -> hd false g = false ->
  let r := single_mode o (Some shell) s in
  fst r = Raise TypeError
  /\ exited (snd r) = exited s
  /\ mem (snd r) = mem s
  /\ sent (snd r)
     = sent s
       ++ [TargetRemote; Find (magic_name o);
           ExamineWord (c - 8); ExamineWord (c - 4);
           ExamineWord (c - offset_to_comm o + offset_to_comm o - 8);
           ExamineWord (c - offset_to_comm o + offset_to_comm o - 8)].
Proof.
  intros Hps Hup Hf Hw Hg Hh r.
  assert (E : r = (Raise TypeError,
                   mkSession (mem s) (strings s) (matches s) (tl g)
                     (remote_up s) (exited s)
                     (sent s
                      ++ [TargetRemote; Find (magic_name o);
                          ExamineWord (c - 8); ExamineWord (c - 4);
                          ExamineWord (c - offset_to_comm o + offset_to_comm o - 8);
                          ExamineWord (c - offset_to_comm o + offset_to_comm o - 8)]))).
  { subst r. unfold single_mode.
    unfold bind at 1. unfold lift. rewrite (check_present _ _ _ Hps).
    unfold bind at 1. rewrite (init_up s Hup).
    unfold bind at 1. unfold get_process_task_struct.
    unfold bind at 1. unfold find. cbn [matches logged]. rewrite Hf.
    cbn [scan_candidates]. unfold bind at 1.
    rewrite (read_mem_answered (c - 8)
               (log_cmd (Find (magic_name o)) (logged [TargetRemote] s))
               _ Hg).
    unfold bind at 1.
    rewrite (read_mem_answered (c - 4)
               (mkSession _ _ _ (false :: true :: g) _ _ _) _ eq_refl).
    cbn [mem log_cmd logged py_eq]. rewrite Hw, Z.eqb_refl. unfold ret at 1.
    unfold bind at 1.
    rewrite (read_mem_retried (c - offset_to_comm o + offset_to_comm o - 8)
               (mkSession _ _ _ (true :: g) _ _ _) g eq_refl Hh).
    cbn [mem strings matches remote_up exited sent log_cmd logged].
    rewrite <- !app_assoc. reflexivity. }
  rewrite E. repeat split.
Qed.

Lemma single_mode_retried_credential_witness :
  fst (single_mode (options_A "STAGER" false)
         (Some (device_of "3.10.0+" "STAGER"))
         (scheduled_session [false; false; true; false]))
  = Raise TypeError
  /\ exited (snd (single_mode (options_A "STAGER" false)
                    (Some (device_of "3.10.0+" "STAGER"))
                    (scheduled_session [false; false; true; false])))
     = false.
Proof.
  destruct (single_mode_retried_credential (options_A "STAGER" false)
              (device_of "3.10.0+" "STAGER")
              (scheduled_session [false; false; true; false])
              0xC1000288 [] [false])
    as (R & X & _).
  - now exists EmptyString, EmptyString.
  - reflexivity.
  - vm_compute. reflexivity.
  - vm_compute. reflexivity.
  - reflexivity.
  - reflexivity.
  - split; [exact R|exact X].
Defined.

Lemma run_ret_open {A} (m : M A) s a :
  exits_on_timeout m -> exited s = false -> fst (m s) = Ret a ->
  exited (snd (m s)) = false.
Proof.
  intros Hm Hs Hr. destruct (exited (snd (m s))) eqn:E; [|reflexivity].
  apply (Hm s Hs) in E. rewrite Hr in E. discriminate E.
Qed.

(** X19.  In the staged modes, when the walk returns [None] for adbd's credential
    pointer (its last read succeeded at the second try only), the run ends
    with [TypeError] at the first capability write: the session is the one
    the walk left, open as it was, and the memory is untouched. *)
Theorem staged_modes_none_credential fuel o dev s magic :
  check_process_is_running "STAGER" (ps_cmd o) dev = Ret tt ->
  remote_up s = true -> exited s = false ->
  let located :=
    get_process_task_struct o "STAGER" (logged [TargetRemote] s) in
  fst located = Ret magic ->
  let walked := get_adbd_cred_struct fuel o magic (snd located) in
  fst walked = Ret PyNone ->
  setuid_mode fuel o dev s = (Raise TypeError, snd walked)
  /\ adbd_mode fuel o dev s = (Raise TypeError, snd walked)
  /\ mem (snd walked) = mem s
  /\ exited (snd walked) = false.
Proof.
  intros Hps Hup Hex located Hloc walked Hwalk.
  assert (Eloc : get_process_task_struct o "STAGER" (logged [TargetRemote] s)
                 = (Ret magic, snd located))
    by (fold located; destruct located; cbn [fst snd] in *; now subst).
  assert (Ewalk : get_adbd_cred_struct fuel o magic (snd located)
                  = (Ret PyNone, snd walked))
    by (fold walked; destruct walked; cbn [fst snd] in *; now subst).
  split; [|split; [|split]].
  - unfold setuid_mode.
    unfold bind at 1. unfold lift. rewrite Hps.
    unfold bind at 1. rewrite (init_up s Hup).
    unfold bind at 1. rewrite Eloc.
    unfold bind at 1. rewrite Ewalk.
    unfold bind at 1. reflexivity.
  - unfold adbd_mode.
    unfold bind at 1. unfold lift. rewrite Hps.
    unfold bind at 1. rewrite (init_up s Hup).
    unfold bind at 1. rewrite Eloc.
    unfold bind at 1. rewrite Ewalk.
    unfold bind at 1. reflexivity.
  - destruct (reads_only_walk o fuel magic (snd located)) as (M2 & _).
    destruct (reads_only_scan o (filter (aligned o)
                                   (matches (logged [TargetRemote] s) "STAGER"))
                (log_cmd (Find "STAGER") (logged [TargetRemote] s)))
      as (M1 & _).
    fold walked in M2. rewrite M2. unfold located.
    unfold get_process_task_struct, bind, find. rewrite M1. reflexivity.
  - assert (X1 : exited (snd located) = false).
    { apply (run_ret_open (get_process_task_struct o "STAGER")
               (logged [TargetRemote] s) magic);
        [apply exits_on_timeout_locate|exact Hex|exact Hloc]. }
    apply (run_ret_open (get_adbd_cred_struct fuel o magic) (snd located) PyNone);
      [apply exits_on_timeout_walk|exact X1|exact Hwalk].
Qed.

Lemma staged_modes_none_credential_witness :
  fst (setuid_mode 5 (options_A "STAGER" false)
         (Some (device_of "3.10.0+" "STAGER"))
         (scheduled_session [false; false; false; false; true; false]))
  = Raise TypeError
  /\ fst (adbd_mode 5 (options_A "STAGER" true)
            (Some (device_of "3.10.0+" "STAGER"))
            (scheduled_session [false; false; false; false; true; false]))
     = Raise TypeError.
Proof.
  split.
  - destruct (staged_modes_none_credential 5 (options_A "STAGER" false)
                (Some (device_of "3.10.0+" "STAGER"))
                (scheduled_session [false; false; false; false; true; false])
                0xC1000000) as (E & _);
      [reflexivity|reflexivity|reflexivity
      |vm_compute; reflexivity|vm_compute; reflexivity|].
    rewrite E. reflexivity.
  - destruct (staged_modes_none_credential 5 (options_A "STAGER" true)
                (Some (device_of "3.10.0+" "STAGER"))
                (scheduled_session [false; false; false; false; true; false])
                0xC1000000) as (_ & E & _);
      [reflexivity|reflexivity|reflexivity
      |vm_compute; reflexivity|vm_compute; reflexivity|].
    rewrite E. reflexivity.
Defined.


